(** * LanceBot: the bidding-decision engine of [bidding.py]

    A shallow embedding of the two bidding strategies
    ([MinimalDecreaseStrategy], [TimedStrategy]) and of the
    [BiddingManager] that keeps the per-auction state, followed by the
    properties of the engine.

    Conventions of the embedding:
    - a Python [float] is a binary64 value: Rocq's primitive [float];
      every arithmetic operation and comparison is the IEEE 754 one;
    - a Python [int] is a [Z];
    - [Optional[T]] is [option T];
    - strategy objects live in a heap and an auction record holds a
      reference to its strategy, so that one [TimedStrategy] instance
      registered under two ids shares one cursor, as in Python;
    - the logger is a sink of events: every [LanceLogger] wraps the one
      Python logger named "LanceBot", so the sink is one chronological
      list;
    - [datetime.now()] and [random.randint] are inputs of the call that
      reads them. *)

From Stdlib Require Import ZArith Bool Lia Sorted.
From Stdlib Require Import PrimFloat FloatOps SpecFloat FloatAxioms.
From stdpp Require Import gmap strings list fin_maps.

Set Warnings "-inexact-float".

(* ================================================================== *)
(** ** Python numbers *)

(** Round-half-to-even of the rational [num / den] ([den > 0]) to an
    integer. *)
Definition round_half_even (num den : Z) : Z :=
  let q := (num / den)%Z in
  let r := (num mod den)%Z in
  match (2 * r ?= den)%Z with
  | Lt => q
  | Gt => (q + 1)%Z
  | Eq => if Z.even q then q else (q + 1)%Z
  end.

(** The builtin [round(number, ndigits)] on a float, for [ndigits >= 0].
    CPython prints the exact binary value with [ndigits] decimals,
    correctly rounded (ties to even), and reads the decimal string back
    to the nearest double; NaN and the infinities round to themselves.
    [n] below is the integer [number * 10^ndigits] rounded half-even on
    the exact value, and the result is the nearest double to
    [n / 10^ndigits]. *)
Definition round (number : float) (ndigits : N) : float :=
  match Prim2SF number with
  | S754_finite s m e =>
      let scale := (10 ^ Z.of_N ndigits)%Z in
      let n := match e with
               | Zneg p => round_half_even (scale * Zpos m) (2 ^ Zpos p)
               | _ => (scale * Zpos m * 2 ^ e)%Z
               end in
      match n with
      | Zpos p =>
          SF2Prim (SFdiv prec emax (S754_finite s p 0)
                         (S754_finite false (Z.to_pos scale) 0))
      | _ => SF2Prim (S754_zero s)
      end
  | _ => number
  end.

(** Python's [a > b] on floats. *)
Definition gtb (a b : float) : bool := (b <? a)%float.

(* ================================================================== *)
(** ** Exceptions and the event sink *)

Inductive exn := TypeError | ValueError | AttributeError.

Inductive result (A : Type) :=
| Ok (a : A)
| Raise (e : exn).
Arguments Ok {A} a.
Arguments Raise {A} e.

Inductive level := INFO | WARNING.

(** One constructor per message the engine formats. *)
Inductive message :=
| MsgCalculated (new_bid current_price : float)
| MsgAlreadyLowest (my_last_bid : float)
| MsgBelowMin (current_price min_price : float)
| MsgAggressive (new_bid : float)
| MsgScheduled (seconds_remaining : Z)
| MsgRegistered (auction_id : string) (item_description : option string)
| MsgProcessUnknown (auction_id : string)
| MsgMaxBids (auction_id : string)
| MsgProcessed (auction_id : string) (bid_value : float)
| MsgStatusUnknown (auction_id : string)
| MsgRemoved (auction_id : string)
| MsgRemoveUnknown (auction_id : string).

Definition event : Type := level * message.

(* ================================================================== *)
(** ** MinimalDecreaseStrategy *)

Module MinimalDecreaseStrategy.

Record t := {
  min_decrease_value : float;
  min_decrease_percent : float
}.

(** [__init__]: an omitted argument takes its default. *)
Definition init (min_decrease_value min_decrease_percent : option float) : t :=
  {| min_decrease_value := default 0.01%float min_decrease_value;
     min_decrease_percent := default 0%float min_decrease_percent |}.

Definition calculate_bid (self : t) (current_price : float)
  : float * list event :=
  let percent_decrease :=
    (current_price * (min_decrease_percent self / 100))%float in
  let new_bid :=
    if gtb percent_decrease (min_decrease_value self)
       && gtb (min_decrease_percent self) 0
    then (current_price - percent_decrease)%float
    else (current_price - min_decrease_value self)%float in
  let new_bid := round new_bid 2 in
  (new_bid, [(INFO, MsgCalculated new_bid current_price)]).

Definition should_bid (self : t) (current_price : float)
    (my_last_bid min_price : option float) : bool * list event :=
  let floor_check :=
    match min_price with
    | Some m =>
        if (current_price <=? m)%float
        then (false, [(INFO, MsgBelowMin current_price m)])
        else (true, [])
    | None => (true, [])
    end in
  match my_last_bid with
  | Some b =>
      if (b <=? current_price)%float
      then (false, [(INFO, MsgAlreadyLowest b)])
      else floor_check
  | None => floor_check
  end.

End MinimalDecreaseStrategy.

(* ================================================================== *)
(** ** TimedStrategy *)

Module TimedStrategy.

Record t := {
  bid_times : list Z;
  random_delay : bool;
  max_random_delay : Z;
  last_bid_time_index : Z
}.

(** [__init__]: [bid_times or [60, 30, 10, 3]] replaces [None] and the
    empty list by the default schedule. *)
Definition init (bid_times : option (list Z)) (random_delay : bool)
    (max_random_delay : Z) : t :=
  {| bid_times := match bid_times with
                  | None | Some [] => [60; 30; 10; 3]%Z
                  | Some l => l
                  end;
     random_delay := random_delay;
     max_random_delay := max_random_delay;
     last_bid_time_index := (-1)%Z |}.

Definition set_last_bid_time_index (i : Z) (self : t) : t :=
  {| bid_times := bid_times self;
     random_delay := random_delay self;
     max_random_delay := max_random_delay self;
     last_bid_time_index := i |}.

Definition calculate_bid (self : t) (current_price : float)
    (min_decrease_value min_decrease_percent : float)
    (aggressive_final_bid : bool) : float * list event :=
  let base_strategy :=
    {| MinimalDecreaseStrategy.min_decrease_value := min_decrease_value;
       MinimalDecreaseStrategy.min_decrease_percent := min_decrease_percent |} in
  if aggressive_final_bid
     && (Z.of_nat (length (bid_times self)) - 2 <=? last_bid_time_index self)%Z
  then
    let percent_decrease :=
      (current_price * (min_decrease_percent * 2 / 100))%float in
    let value_decrease := (min_decrease_value * 2)%float in
    let new_bid :=
      if gtb percent_decrease value_decrease && gtb min_decrease_percent 0
      then (current_price - percent_decrease)%float
      else (current_price - value_decrease)%float in
    let new_bid := round new_bid 2 in
    (new_bid, [(INFO, MsgAggressive new_bid)])
  else MinimalDecreaseStrategy.calculate_bid base_strategy current_price.

(** [random.randint(a, b)]: raises [ValueError] on an empty range;
    otherwise any integer of [a..b] can come out.  [word] is the raw
    random word the generator produces for this draw. *)
Definition randint (word a b : Z) : result Z :=
  if (b <? a)%Z then Raise ValueError
  else Ok (a + word mod (b - a + 1))%Z.

(** The threshold compared at position [i] of the scan. *)
Definition adjusted_bid_time (rnd : nat → Z) (self : t) (i : nat)
    (bid_time : Z) : result Z :=
  if random_delay self then
    match randint (rnd i) 0 (max_random_delay self) with
    | Ok delay => Ok (bid_time + delay)%Z
    | Raise e => Raise e
    end
  else Ok bid_time.

(** The [for i, bid_time in enumerate(self.bid_times)] loop, from
    position [i] on: the index that fires, if any. *)
Fixpoint scan (rnd : nat → Z) (self : t) (seconds_remaining : Z)
    (i : nat) (rest : list Z) : result (option nat) :=
  match rest with
  | [] => Ok None
  | bid_time :: rest' =>
      match adjusted_bid_time rnd self i bid_time with
      | Raise e => Raise e
      | Ok adjusted =>
          if (seconds_remaining <=? adjusted)%Z
             && (last_bid_time_index self <? Z.of_nat i)%Z
          then Ok (Some i)
          else scan rnd self seconds_remaining (S i) rest'
      end
  end.

(** Returns the answer, the strategy object after the call and the
    events emitted.  An exception leaves the object as it was and
    nothing has been logged before it. *)
Definition should_bid (rnd : nat → Z) (self : t) (seconds_remaining : Z)
    (current_price : float) (my_last_bid min_price : option float)
  : result (bool * t * list event) :=
  let base_strategy := MinimalDecreaseStrategy.init None None in
  let '(ok, evs) :=
    MinimalDecreaseStrategy.should_bid base_strategy current_price
      my_last_bid min_price in
  if negb ok then Ok (false, self, evs)
  else
    match scan rnd self seconds_remaining 0 (bid_times self) with
    | Raise e => Raise e
    | Ok (Some i) =>
        Ok (true, set_last_bid_time_index (Z.of_nat i) self,
            evs ++ [(INFO, MsgScheduled seconds_remaining)])
    | Ok None => Ok (false, self, evs)
    end.

End TimedStrategy.

(* ================================================================== *)
(** ** BiddingManager *)

Inductive strategy :=
| Minimal (s : MinimalDecreaseStrategy.t)
| Timed (s : TimedStrategy.t).

(** One entry of [bid_history]. *)
Module Bid.
Record t := {
  value : float;
  timestamp : Z;
  current_price : float
}.
End Bid.

(** The dict stored under an auction id. *)
Module Auction.
Record t := {
  strategy : nat;
  min_price : option float;
  max_bids : option Z;
  bids_count : Z;
  last_bid : option float;
  item_description : option string;
  start_time : Z;
  bid_history : list Bid.t
}.
End Auction.

(** The keyword arguments a caller can add to [process_bid] that one of
    the two strategies reads by name.  [my_last_bid] and [min_price]
    collide with the manager's own keys and win over them in
    [strategy_params.update(kwargs)]; any other key ends in a strategy's
    own [**kwargs] and is never read. *)
Module Kwargs.
Record t := {
  my_last_bid : option (option float);
  min_price : option (option float);
  min_decrease_value : option float;
  min_decrease_percent : option float;
  aggressive_final_bid : option bool
}.
Definition empty : t :=
  {| my_last_bid := None; min_price := None; min_decrease_value := None;
     min_decrease_percent := None; aggressive_final_bid := None |}.
End Kwargs.

(** The dict [strategy_params] once assembled; an absent key is [None]
    in the fields that are optional keys. *)
Module Params.
Record t := {
  current_price : float;
  my_last_bid : option float;
  min_price : option float;
  seconds_remaining : option Z;
  min_decrease_value : option float;
  min_decrease_percent : option float;
  aggressive_final_bid : option bool
}.
End Params.

Module BiddingManager.

Record t := {
  heap : list strategy;
  active_auctions : gmap string Auction.t;
  log : list event
}.

(** [BiddingManager()] in a process with the given strategy objects. *)
Definition init (heap : list strategy) : t :=
  {| heap := heap; active_auctions := ∅; log := [] |}.

Definition emit (evs : list event) (st : t) : t :=
  {| heap := heap st; active_auctions := active_auctions st;
     log := log st ++ evs |}.

(** Creating a strategy object: the caller gets its reference. *)
Definition new_strategy (s : strategy) (st : t) : nat * t :=
  (length (heap st),
   {| heap := heap st ++ [s]; active_auctions := active_auctions st;
      log := log st |}).

Definition fresh_auction (now : Z) (strategy : nat)
    (min_price : option float) (max_bids : option Z)
    (item_description : option string) : Auction.t :=
  {| Auction.strategy := strategy;
     Auction.min_price := min_price;
     Auction.max_bids := max_bids;
     Auction.bids_count := 0;
     Auction.last_bid := None;
     Auction.item_description := item_description;
     Auction.start_time := now;
     Auction.bid_history := [] |}.

Definition register_auction (now : Z) (auction_id : string)
    (strategy : nat) (min_price : option float) (max_bids : option Z)
    (item_description : option string) (st : t) : result unit * t :=
  (Ok (),
   {| heap := heap st;
      active_auctions :=
        <[auction_id :=
            fresh_auction now strategy min_price max_bids item_description]>
          (active_auctions st);
      log := log st ++ [(INFO, MsgRegistered auction_id item_description)] |}).

(** [auction['max_bids'] is not None and
     auction['bids_count'] >= auction['max_bids']]. *)
Definition max_bids_reached (auction : Auction.t) : bool :=
  match Auction.max_bids auction with
  | Some m => (m <=? Auction.bids_count auction)%Z
  | None => false
  end.

Definition strategy_params (auction : Auction.t) (current_price : float)
    (seconds_remaining : option Z) (kwargs : Kwargs.t) : Params.t :=
  {| Params.current_price := current_price;
     Params.my_last_bid :=
       default (Auction.last_bid auction) (Kwargs.my_last_bid kwargs);
     Params.min_price :=
       default (Auction.min_price auction) (Kwargs.min_price kwargs);
     Params.seconds_remaining := seconds_remaining;
     Params.min_decrease_value := Kwargs.min_decrease_value kwargs;
     Params.min_decrease_percent := Kwargs.min_decrease_percent kwargs;
     Params.aggressive_final_bid := Kwargs.aggressive_final_bid kwargs |}.

(** The call of [should_bid] of [auction['strategy']] with the keys of
    [strategy_params] as keyword arguments: each key is bound to the
    parameter of that name of the method of the object's class.
    [TimedStrategy.should_bid] has the required parameter
    [seconds_remaining]: the call raises [TypeError] when the key is
    absent.  A reference that designates no strategy object has no
    such method. *)
Definition call_should_bid (rnd : nat → Z) (heap : list strategy)
    (ref : nat) (p : Params.t)
  : result (bool * list strategy * list event) :=
  match heap !! ref with
  | None => Raise AttributeError
  | Some (Minimal s) =>
      let '(b, evs) :=
        MinimalDecreaseStrategy.should_bid s (Params.current_price p)
          (Params.my_last_bid p) (Params.min_price p) in
      Ok (b, heap, evs)
  | Some (Timed s) =>
      match Params.seconds_remaining p with
      | None => Raise TypeError
      | Some seconds =>
          match TimedStrategy.should_bid rnd s seconds
                  (Params.current_price p) (Params.my_last_bid p)
                  (Params.min_price p) with
          | Raise e => Raise e
          | Ok (b, s', evs) => Ok (b, <[ref := Timed s']> heap, evs)
          end
      end
  end.

(** The call of [calculate_bid] of [auction['strategy']] with the same
    keyword arguments. *)
Definition call_calculate_bid (heap : list strategy) (ref : nat)
    (p : Params.t) : result (float * list event) :=
  match heap !! ref with
  | None => Raise AttributeError
  | Some (Minimal s) =>
      Ok (MinimalDecreaseStrategy.calculate_bid s (Params.current_price p))
  | Some (Timed s) =>
      Ok (TimedStrategy.calculate_bid s (Params.current_price p)
            (default 0.01%float (Params.min_decrease_value p))
            (default 0%float (Params.min_decrease_percent p))
            (default false (Params.aggressive_final_bid p)))
  end.

(** The update of the auction dict after an accepted bid. *)
Definition record_bid (now : Z) (current_price bid_value : float)
    (auction : Auction.t) : Auction.t :=
  {| Auction.strategy := Auction.strategy auction;
     Auction.min_price := Auction.min_price auction;
     Auction.max_bids := Auction.max_bids auction;
     Auction.bids_count := (Auction.bids_count auction + 1)%Z;
     Auction.last_bid := Some bid_value;
     Auction.item_description := Auction.item_description auction;
     Auction.start_time := Auction.start_time auction;
     Auction.bid_history :=
       Auction.bid_history auction ++
         [{| Bid.value := bid_value; Bid.timestamp := now;
             Bid.current_price := current_price |}] |}.

Definition process_bid (rnd : nat → Z) (now : Z) (auction_id : string)
    (current_price : float) (seconds_remaining : option Z)
    (kwargs : Kwargs.t) (st : t) : result (option float) * t :=
  match active_auctions st !! auction_id with
  | None => (Ok None, emit [(WARNING, MsgProcessUnknown auction_id)] st)
  | Some auction =>
      if max_bids_reached auction
      then (Ok None, emit [(INFO, MsgMaxBids auction_id)] st)
      else
        let params :=
          strategy_params auction current_price seconds_remaining kwargs in
        match call_should_bid rnd (heap st) (Auction.strategy auction)
                params with
        | Raise e => (Raise e, st)
        | Ok (b, heap1, evs1) =>
            let st1 :=
              {| heap := heap1; active_auctions := active_auctions st;
                 log := log st ++ evs1 |} in
            if negb b then (Ok None, st1)
            else
              match call_calculate_bid heap1 (Auction.strategy auction)
                      params with
              | Raise e => (Raise e, st1)
              | Ok (bid_value, evs2) =>
                  (Ok (Some bid_value),
                   {| heap := heap1;
                      active_auctions :=
                        <[auction_id :=
                            record_bid now current_price bid_value auction]>
                          (active_auctions st);
                      log := log st ++ evs1 ++ evs2 ++
                               [(INFO, MsgProcessed auction_id bid_value)] |})
              end
        end
  end.

Definition get_auction_status (auction_id : string) (st : t)
  : option Auction.t * t :=
  match active_auctions st !! auction_id with
  | None => (None, emit [(WARNING, MsgStatusUnknown auction_id)] st)
  | Some auction => (Some auction, st)
  end.

Definition remove_auction (auction_id : string) (st : t) : bool * t :=
  match active_auctions st !! auction_id with
  | Some _ =>
      (true,
       {| heap := heap st;
          active_auctions := delete auction_id (active_auctions st);
          log := log st ++ [(INFO, MsgRemoved auction_id)] |})
  | None => (false, emit [(WARNING, MsgRemoveUnknown auction_id)] st)
  end.

End BiddingManager.

(* ================================================================== *)
(** ** Sequences of calls *)

(** One [process_bid] call with everything it reads. *)
Module Call.
Record t := {
  rnd : nat → Z;
  now : Z;
  auction_id : string;
  current_price : float;
  seconds_remaining : option Z;
  kwargs : Kwargs.t
}.
End Call.

Definition process (c : Call.t) (st : BiddingManager.t)
  : result (option float) * BiddingManager.t :=
  BiddingManager.process_bid (Call.rnd c) (Call.now c) (Call.auction_id c)
    (Call.current_price c) (Call.seconds_remaining c) (Call.kwargs c) st.

(** The calls one after the other, an exception being caught by the
    caller: the results in order and the final state. *)
Fixpoint process_all (calls : list Call.t) (st : BiddingManager.t)
  : list (result (option float)) * BiddingManager.t :=
  match calls with
  | [] => ([], st)
  | c :: calls' =>
      let '(r, st1) := process c st in
      let '(rs, st2) := process_all calls' st1 in
      (r :: rs, st2)
  end.

(** Everything a client can do with the manager and with the heap. *)
Inductive op :=
| OpNewStrategy (s : strategy)
| OpRegister (now : Z) (auction_id : string) (strategy : nat)
    (min_price : option float) (max_bids : option Z)
    (item_description : option string)
| OpProcess (c : Call.t)
| OpStatus (auction_id : string)
| OpRemove (auction_id : string).

Definition step (o : op) (st : BiddingManager.t) : BiddingManager.t :=
  match o with
  | OpNewStrategy s => snd (BiddingManager.new_strategy s st)
  | OpRegister now id ref min_price max_bids descr =>
      snd (BiddingManager.register_auction now id ref min_price max_bids descr st)
  | OpProcess c => snd (process c st)
  | OpStatus id => snd (BiddingManager.get_auction_status id st)
  | OpRemove id => snd (BiddingManager.remove_auction id st)
  end.

Fixpoint run (ops : list op) (st : BiddingManager.t) : BiddingManager.t :=
  match ops with
  | [] => st
  | o :: ops' => run ops' (step o st)
  end.

(** The calls made on one [TimedStrategy] object during its life. *)
Inductive timed_call :=
| ShouldBid (rnd : nat → Z) (seconds_remaining : Z) (current_price : float)
    (my_last_bid min_price : option float)
| CalculateBid (current_price min_decrease_value min_decrease_percent : float)
    (aggressive_final_bid : bool).

(** One call: the threshold index it fired, if any, and the object
    afterwards. *)
Definition timed_step (c : timed_call) (self : TimedStrategy.t)
  : option Z * TimedStrategy.t :=
  match c with
  | ShouldBid rnd seconds price last floor =>
      match TimedStrategy.should_bid rnd self seconds price last floor with
      | Ok (true, self', _) =>
          (Some (TimedStrategy.last_bid_time_index self'), self')
      | Ok (false, self', _) => (None, self')
      | Raise _ => (None, self)
      end
  | CalculateBid _ _ _ _ => (None, self)
  end.

(** The indices fired by a sequence of calls, in order, and the final
    object. *)
Fixpoint timed_run (calls : list timed_call) (self : TimedStrategy.t)
  : list Z * TimedStrategy.t :=
  match calls with
  | [] => ([], self)
  | c :: calls' =>
      let '(fired, self1) := timed_step c self in
      let '(rest, self2) := timed_run calls' self1 in
      (option_list fired ++ rest, self2)
  end.

(* ================================================================== *)
(** ** The documented behaviour, in the words of the design notes *)

(** The decrement of the minimal-decrease computation: the percentage of
    the price when it is configured positive and strictly larger than
    the fixed decrement, the fixed decrement otherwise.  The percentage
    of the price is taken as the strategy takes it: the percentage is
    divided by 100 first, and the quotient multiplies the price. *)
Definition spec_decrement (min_decrease_value min_decrease_percent
    current_price : float) : float :=
  let percent_decrease :=
    (current_price * (min_decrease_percent / 100))%float in
  if gtb min_decrease_percent 0 then
    if gtb percent_decrease min_decrease_value
    then percent_decrease else min_decrease_value
  else min_decrease_value.

(** The same decrement with the percentage of the price written as the
    design notes write it, [current_price * min_decrease_percent / 100]:
    the price times the percentage, and the product divided by 100. *)
Definition claimed_decrement (min_decrease_value min_decrease_percent
    current_price : float) : float :=
  let percent_decrease :=
    (current_price * min_decrease_percent / 100)%float in
  if gtb min_decrease_percent 0 then
    if gtb percent_decrease min_decrease_value
    then percent_decrease else min_decrease_value
  else min_decrease_value.

(** Baseline eligibility: we already lead, or the price is at or below
    the floor. *)
Definition baseline_blocks (current_price : float)
    (my_last_bid min_price : option float) : Prop :=
  (∃ b, my_last_bid = Some b ∧ (b <=? current_price)%float = true) ∨
  (∃ m, min_price = Some m ∧ (current_price <=? m)%float = true).

(** The threshold at position [i] of the schedule fires for this call. *)
Definition fires_at (rnd : nat → Z) (self : TimedStrategy.t)
    (seconds_remaining : Z) (i : nat) : Prop :=
  ∃ bid_time threshold,
    TimedStrategy.bid_times self !! i = Some bid_time ∧
    TimedStrategy.adjusted_bid_time rnd self i bid_time = Ok threshold ∧
    (seconds_remaining ≤ threshold)%Z ∧
    (TimedStrategy.last_bid_time_index self < Z.of_nat i)%Z.

(** The invariants of an auction record. *)
Definition count_matches_history (a : Auction.t) : Prop :=
  Auction.bids_count a = Z.of_nat (length (Auction.bid_history a)).

Definition last_bid_matches_history (a : Auction.t) : Prop :=
  Auction.last_bid a = Bid.value <$> last (Auction.bid_history a).

Definition within_cap (a : Auction.t) : Prop :=
  ∀ m, Auction.max_bids a = Some m → (Auction.bids_count a ≤ m)%Z.

(* ================================================================== *)
(** ** Scenarios *)

Definition min_strategy_01 : MinimalDecreaseStrategy.t :=
  MinimalDecreaseStrategy.init (Some 0.01%float) (Some 0.1%float).

(** A manager with one [TimedStrategy(bid_times=[60, 30, 10, 3])], no
    jitter, bound to auction "A" with floor 90.0. *)
Definition timed_scenario (max_bids : option Z) : BiddingManager.t :=
  let '(ref, st) :=
    BiddingManager.new_strategy
      (Timed (TimedStrategy.init (Some [60; 30; 10; 3]%Z) false 5))
      (BiddingManager.init []) in
  snd (BiddingManager.register_auction 0 "A" ref (Some 90%float) max_bids
         None st).

Definition timed_scenario_calls (rnd : nat → Z) (now : Z) : list Call.t :=
  (λ s, {| Call.rnd := rnd; Call.now := now; Call.auction_id := "A";
           Call.current_price := 100%float;
           Call.seconds_remaining := Some s;
           Call.kwargs := Kwargs.empty |})
  <$> [120; 60; 40; 30; 15; 10; 5; 3; 1]%Z.

(** A manager with one minimal-decrease strategy (fixed decrement
    [min_decrease_value], no percentage) bound to auction "A". *)
Definition minimal_scenario (min_decrease_value : float)
    (min_price : option float) (max_bids : option Z) : BiddingManager.t :=
  let '(ref, st) :=
    BiddingManager.new_strategy
      (Minimal (MinimalDecreaseStrategy.init (Some min_decrease_value) None))
      (BiddingManager.init []) in
  snd (BiddingManager.register_auction 0 "A" ref min_price max_bids None st).

Definition call_on_A (current_price : float) (seconds_remaining : option Z)
  : Call.t :=
  {| Call.rnd := λ _, 0%Z; Call.now := 1; Call.auction_id := "A";
     Call.current_price := current_price;
     Call.seconds_remaining := seconds_remaining;
     Call.kwargs := Kwargs.empty |}.

(** The cap invariant on the caps that can hold a count. *)
Definition within_nonnegative_cap (a : Auction.t) : Prop :=
  ∀ m, Auction.max_bids a = Some m → (0 ≤ m)%Z → (Auction.bids_count a ≤ m)%Z.

Definition auction_ok (a : Auction.t) : Prop :=
  count_matches_history a ∧ last_bid_matches_history a ∧
  within_nonnegative_cap a.

(** A result that carries a bid. *)
Definition accepted (r : result (option float)) : bool :=
  match r with
  | Ok (Some _) => true
  | _ => false
  end.

(* ================================================================== *)
(** ** Relations between two moments of the engine *)

(** How a strategy object can differ between two moments of its life:
    a minimal-decrease object not at all, a timed object by a cursor
    that has moved forward. *)
Definition strategy_evolves (s s' : strategy) : Prop :=
  match s, s' with
  | Minimal a, Minimal b => a = b
  | Timed a, Timed b =>
      TimedStrategy.bid_times b = TimedStrategy.bid_times a ∧
      TimedStrategy.random_delay b = TimedStrategy.random_delay a ∧
      TimedStrategy.max_random_delay b = TimedStrategy.max_random_delay a ∧
      (TimedStrategy.last_bid_time_index a
       ≤ TimedStrategy.last_bid_time_index b)%Z
  | _, _ => False
  end.

(** The keys of an auction dict that are written at registration only. *)
Definition same_binding (a a' : Auction.t) : Prop :=
  Auction.strategy a' = Auction.strategy a ∧
  Auction.min_price a' = Auction.min_price a ∧
  Auction.max_bids a' = Auction.max_bids a ∧
  Auction.item_description a' = Auction.item_description a ∧
  Auction.start_time a' = Auction.start_time a.

(** The number of calls of a sequence that were made on [id] and
    returned a bid. *)
Definition accepted_on (id : string) (calls : list Call.t)
    (rs : list (result (option float))) : nat :=
  length (List.filter
            (λ cr : Call.t * result (option float),
               bool_decide (Call.auction_id cr.1 = id) && accepted cr.2)
            (zip calls rs)).

(** A schedule given from the largest threshold down. *)
Definition descending (l : list Z) : Prop :=
  StronglySorted (λ a b : Z, (b ≤ a)%Z) l.

(* ================================================================== *)
(** ** The second engine: [src/core/bidding.py]

    The repository holds a second, smaller implementation of the same
    three classes.  Its strategies are immutable, so an auction record
    holds its strategy by value; its manager logs errors, so it has its
    own levels; its [register_auction] logs nothing. *)

Module Core.

(** The builtin [max(a, b)] on floats: the first argument unless the
    second is greater. *)
Definition max (a b : float) : float := if gtb b a then b else a.

Inductive level := INFO | ERROR.

Inductive message :=
| MsgCalculated (new_bid : float)
| MsgNotRegistered (auction_id : string)
| MsgMaxBids (auction_id : string)
| MsgBid (new_bid : float).

Definition event : Type := level * message.

Module MinimalDecreaseStrategy.
Record t := {
  min_decrease_value : float;
  min_decrease_percent : float
}.

Definition calculate_bid (self : t) (current_price : float)
  : float * list event :=
  let decrease :=
    max (min_decrease_value self)
        (current_price * min_decrease_percent self)%float in
  let new_bid := (current_price - decrease)%float in
  (new_bid, [(INFO, MsgCalculated new_bid)]).
End MinimalDecreaseStrategy.

Module TimedStrategy.
Record t := {
  bid_times : list Z;
  random_delay : bool
}.

Definition should_bid (self : t) (seconds_remaining : Z)
    (current_price : float) (my_last_bid : option float) (min_price : float)
  : bool :=
  bool_decide (seconds_remaining ∈ bid_times self).

Definition calculate_bid (self : t) (current_price min_decrease_value
    min_decrease_percent : float) (aggressive_final_bid : bool) : float :=
  if aggressive_final_bid
  then (current_price - min_decrease_value * 2)%float
  else (current_price
        - max min_decrease_value
              (current_price * min_decrease_percent))%float.
End TimedStrategy.

Inductive strategy :=
| Minimal (s : MinimalDecreaseStrategy.t)
| Timed (s : TimedStrategy.t).

Module Auction.
Record t := {
  strategy : Core.strategy;
  min_price : float;
  max_bids : Z;
  item_description : string;
  bids_count : Z;
  last_bid : option float
}.
End Auction.

Module BiddingManager.
Record t := {
  auctions : gmap string Auction.t;
  log : list event
}.

Definition init : t := {| auctions := ∅; log := [] |}.

Definition emit (evs : list event) (st : t) : t :=
  {| auctions := auctions st; log := log st ++ evs |}.

Definition register_auction (auction_id : string) (strategy : Core.strategy)
    (min_price : float) (max_bids : Z) (item_description : string)
    (st : t) : t :=
  {| auctions :=
       <[auction_id :=
           {| Auction.strategy := strategy;
              Auction.min_price := min_price;
              Auction.max_bids := max_bids;
              Auction.item_description := item_description;
              Auction.bids_count := 0;
              Auction.last_bid := None |}]> (auctions st);
     log := log st |}.

(** The update of the auction dict after a bid. *)
Definition record_bid (new_bid : float) (auction : Auction.t) : Auction.t :=
  {| Auction.strategy := Auction.strategy auction;
     Auction.min_price := Auction.min_price auction;
     Auction.max_bids := Auction.max_bids auction;
     Auction.item_description := Auction.item_description auction;
     Auction.bids_count := (Auction.bids_count auction + 1)%Z;
     Auction.last_bid := Some new_bid |}.

(** A [MinimalDecreaseStrategy] of this file has no [should_bid]: the
    attribute lookup raises [AttributeError] before anything is
    changed or logged. *)
Definition process_bid (auction_id : string) (current_price : float)
    (seconds_remaining : Z) (st : t) : result (option float) * t :=
  match auctions st !! auction_id with
  | None => (Ok None, emit [(ERROR, MsgNotRegistered auction_id)] st)
  | Some auction =>
      if (Auction.max_bids auction <=? Auction.bids_count auction)%Z
      then (Ok None, emit [(INFO, MsgMaxBids auction_id)] st)
      else
        match Auction.strategy auction with
        | Minimal _ => (Raise AttributeError, st)
        | Timed s =>
            if TimedStrategy.should_bid s seconds_remaining current_price
                 (Auction.last_bid auction) (Auction.min_price auction)
            then
              let new_bid :=
                TimedStrategy.calculate_bid s current_price 0.01 0.1
                  (seconds_remaining <=? 5)%Z in
              (Ok (Some new_bid),
               {| auctions :=
                    <[auction_id := record_bid new_bid auction]>
                      (auctions st);
                  log := log st ++ [(INFO, MsgBid new_bid)] |})
            else (Ok None, st)
        end
  end.

(** The status dict: [bids_count] and [last_bid], or the empty dict. *)
Definition get_auction_status (auction_id : string) (st : t)
  : option (Z * option float) * t :=
  match auctions st !! auction_id with
  | None => (None, emit [(ERROR, MsgNotRegistered auction_id)] st)
  | Some auction =>
      (Some (Auction.bids_count auction, Auction.last_bid auction), st)
  end.
End BiddingManager.

(** One [process_bid] call. *)
Module Call.
Record t := {
  auction_id : string;
  current_price : float;
  seconds_remaining : Z
}.
End Call.

Definition process (c : Call.t) (st : BiddingManager.t)
  : result (option float) * BiddingManager.t :=
  BiddingManager.process_bid (Call.auction_id c) (Call.current_price c)
    (Call.seconds_remaining c) st.

Fixpoint process_all (calls : list Call.t) (st : BiddingManager.t)
  : list (result (option float)) * BiddingManager.t :=
  match calls with
  | [] => ([], st)
  | c :: calls' =>
      let '(r, st1) := process c st in
      let '(rs, st2) := process_all calls' st1 in
      (r :: rs, st2)
  end.

(** The calls of a sequence made on [id] at a second of the schedule. *)
Definition scheduled_on (id : string) (s : TimedStrategy.t)
    (calls : list Call.t) : nat :=
  length (List.filter
            (λ c : Call.t,
               bool_decide (Call.auction_id c = id)
               && bool_decide (Call.seconds_remaining c
                               ∈ TimedStrategy.bid_times s))
            calls).

(** Everything a client can do with the manager. *)
Inductive op :=
| OpRegister (auction_id : string) (strategy : Core.strategy)
    (min_price : float) (max_bids : Z) (item_description : string)
| OpProcess (c : Call.t)
| OpStatus (auction_id : string).

Definition step (o : op) (st : BiddingManager.t) : BiddingManager.t :=
  match o with
  | OpRegister id strategy min_price max_bids descr =>
      BiddingManager.register_auction id strategy min_price max_bids descr st
  | OpProcess c => snd (process c st)
  | OpStatus id => snd (BiddingManager.get_auction_status id st)
  end.

Fixpoint run (ops : list op) (st : BiddingManager.t) : BiddingManager.t :=
  match ops with
  | [] => st
  | o :: ops' => run ops' (step o st)
  end.

(** What holds of every record of a reachable state. *)
Definition auction_ok (a : Auction.t) : Prop :=
  (0 ≤ Auction.bids_count a)%Z ∧
  (Auction.last_bid a = None ↔ Auction.bids_count a = 0%Z) ∧
  ((0 ≤ Auction.max_bids a)%Z →
   (Auction.bids_count a ≤ Auction.max_bids a)%Z).

End Core.

(* ================================================================== *)
(** * Properties *)

Import BiddingManager.

(** ** Small facts about the manager *)

Lemma process_bid_unknown rnd now id price secs kw st :
  active_auctions st !! id = None →
  process_bid rnd now id price secs kw st
  = (Ok None, emit [(WARNING, MsgProcessUnknown id)] st).
Proof. intros H. unfold process_bid. by rewrite H. Qed.

Lemma process_bid_capped rnd now id price secs kw st a :
  active_auctions st !! id = Some a →
  max_bids_reached a = true →
  process_bid rnd now id price secs kw st
  = (Ok None, emit [(INFO, MsgMaxBids id)] st).
Proof. intros H Hcap. unfold process_bid. by rewrite H, Hcap. Qed.


(* ------------------------------------------------------------------ *)
(** ** Registration *)

(** C1 (as the code has it): [register_auction] never fails and never
    looks at the registry: for every state and every id, present or
    not, it returns normally and binds the id to a fresh record (zero
    [bids_count], no [last_bid], empty [bid_history]), replacing the
    record that was there; the strategy objects are untouched and one
    informational event is emitted. *)
Theorem register_auction_replaces now id ref min_price max_bids descr st :
  let '(r, st') := register_auction now id ref min_price max_bids descr st in
  r = Ok () ∧
  active_auctions st' !! id
  = Some (fresh_auction now ref min_price max_bids descr) ∧
  active_auctions st'
  = <[id := fresh_auction now ref min_price max_bids descr]>
      (active_auctions st) ∧
  heap st' = heap st ∧
  log st' = log st ++ [(INFO, MsgRegistered id descr)].
Proof.
  cbn. split_and!; try reflexivity. apply lookup_insert_eq.
Qed.

(** C1, counterexample: auction "A" holds one accepted bid
    ([bids_count = 1], [last_bid = 99.99], one history entry);
    registering "A" again returns normally and the record is replaced
    by one with [bids_count = 0], no [last_bid] and an empty history. *)
Lemma register_auction_duplicate_overwrites :
  let st := snd (process (call_on_A 100 None)
                   (minimal_scenario 0.01 None None)) in
  let '(r, st') := register_auction 2 "A" 0 None None None st in
  (Auction.bids_count <$> active_auctions st !! "A") = Some 1%Z ∧
  (Auction.last_bid <$> active_auctions st !! "A") = Some (Some 99.99%float) ∧
  (length ∘ Auction.bid_history <$> active_auctions st !! "A") = Some 1 ∧
  r = Ok () ∧
  (Auction.bids_count <$> active_auctions st' !! "A") = Some 0%Z ∧
  (Auction.last_bid <$> active_auctions st' !! "A") = Some None ∧
  (Auction.bid_history <$> active_auctions st' !! "A") = Some [].
Proof. vm_compute. split_and!; reflexivity. Qed.

(* ------------------------------------------------------------------ *)
(** ** Unknown auctions *)

(** C9: for an id that is not in the registry, [process_bid] returns
    "no bid" (it raises nothing), emits one warning event and leaves
    the registry and the strategy objects as they were; the id is still
    absent afterwards. *)
Theorem process_bid_unknown_auction rnd now id price secs kw st :
  active_auctions st !! id = None →
  ∃ st',
    process_bid rnd now id price secs kw st = (Ok None, st') ∧
    active_auctions st' = active_auctions st ∧
    active_auctions st' !! id = None ∧
    heap st' = heap st ∧
    log st' = log st ++ [(WARNING, MsgProcessUnknown id)].
Proof.
  intros H. eexists. split; [by apply process_bid_unknown|]. by cbn.
Qed.

Lemma process_bid_unknown_auction_witness :
  active_auctions (BiddingManager.init []) !! "A" = None ∧
  ∃ st',
    process_bid (λ _, 0%Z) 1 "A" 100 None Kwargs.empty (BiddingManager.init [])
    = (Ok None, st') ∧
    active_auctions st' = active_auctions (BiddingManager.init []) ∧
    active_auctions st' !! "A" = None ∧
    heap st' = heap (BiddingManager.init []) ∧
    log st' = log (BiddingManager.init []) ++ [(WARNING, MsgProcessUnknown "A")].
Proof.
  split; [reflexivity|].
  apply (process_bid_unknown_auction (λ _, 0%Z) 1 "A" 100 None Kwargs.empty
           (BiddingManager.init [])).
  reflexivity.
Defined.

(* ------------------------------------------------------------------ *)
(** ** The missing [seconds_remaining] *)

(** C10 (as the code has it): for a registered auction bound to a
    [TimedStrategy] whose cap is not reached, [process_bid] without
    [seconds_remaining] raises [TypeError] to the caller, whatever the
    extra keyword arguments, and changes nothing. *)
Theorem process_bid_timed_needs_seconds rnd now id price kw st a s :
  active_auctions st !! id = Some a →
  heap st !! Auction.strategy a = Some (Timed s) →
  max_bids_reached a = false →
  process_bid rnd now id price None kw st = (Raise TypeError, st).
Proof.
  intros Ha Hs Hcap. unfold process_bid, call_should_bid.
  rewrite Ha, Hcap. cbn. by rewrite Hs.
Qed.

Lemma process_bid_timed_needs_seconds_witness :
  let a := fresh_auction 0 0 (Some 90%float) None None in
  let s := TimedStrategy.init (Some [60; 30; 10; 3]%Z) false 5 in
  active_auctions (timed_scenario None) !! "A" = Some a ∧
  heap (timed_scenario None) !! Auction.strategy a = Some (Timed s) ∧
  max_bids_reached a = false ∧
  process_bid (λ _, 0%Z) 1 "A" 100 None Kwargs.empty (timed_scenario None)
  = (Raise TypeError, timed_scenario None).
Proof.
  cbv zeta.
  assert (Ha : active_auctions (timed_scenario None) !! "A"
               = Some (fresh_auction 0 0 (Some 90%float) None None))
    by (vm_compute; reflexivity).
  assert (Hs : heap (timed_scenario None)
                 !! Auction.strategy
                      (fresh_auction 0 0 (Some 90%float) None None)
               = Some (Timed (TimedStrategy.init (Some [60; 30; 10; 3]%Z)
                                false 5)))
    by (vm_compute; reflexivity).
  split; [exact Ha|]. split; [exact Hs|]. split; [reflexivity|].
  exact (process_bid_timed_needs_seconds (λ _, 0%Z) 1 "A" 100 Kwargs.empty
           _ _ _ Ha Hs eq_refl).
Defined.

(** C10, counterexample: an auction bound to a [TimedStrategy] and
    registered with [max_bids = 0] has its cap reached: [process_bid]
    without [seconds_remaining] returns "no bid" and raises nothing. *)
Lemma process_bid_timed_capped_no_type_error :
  (∃ a s, active_auctions (timed_scenario (Some 0%Z)) !! "A" = Some a ∧
          heap (timed_scenario (Some 0%Z)) !! Auction.strategy a
          = Some (Timed s)) ∧
  fst (process (call_on_A 100 None) (timed_scenario (Some 0%Z))) = Ok None.
Proof. split; [do 2 eexists; split|]; vm_compute; reflexivity. Qed.

(* ------------------------------------------------------------------ *)
(** ** The minimal decrement *)

Lemma minimal_calculate_bid_value self current_price :
  fst (MinimalDecreaseStrategy.calculate_bid self current_price)
  = round (current_price
           - spec_decrement
               (MinimalDecreaseStrategy.min_decrease_value self)
               (MinimalDecreaseStrategy.min_decrease_percent self)
               current_price) 2.
Proof.
  destruct self as [v p].
  unfold MinimalDecreaseStrategy.calculate_bid, spec_decrement, gtb. cbn.
  destruct (0 <? p)%float, (v <? current_price * (p / 100))%float;
    reflexivity.
Qed.

(** C3 (as the code has it): for every configuration and every
    [current_price], [calculate_bid] returns
    [round(current_price - d, 2)] where [d] is
    [current_price * (min_decrease_percent / 100)], the percentage
    divided by 100 before it multiplies the price, when
    [min_decrease_percent > 0] and that decrement is strictly greater
    than [min_decrease_value], and [min_decrease_value] otherwise.
    With [min_decrease_value = 0.01] and [min_decrease_percent = 0.1]:
    at 100.0 the percentage decrement is strictly greater than 0.01 and
    the bid is 99.9; at 10.0 it is not strictly greater and the bid is
    9.99; at these two prices the decrement written
    [current_price * min_decrease_percent / 100] gives the same bids. *)
Theorem minimal_calculate_bid_formula :
  (∀ self current_price,
     fst (MinimalDecreaseStrategy.calculate_bid self current_price)
     = round (current_price
              - spec_decrement
                  (MinimalDecreaseStrategy.min_decrease_value self)
                  (MinimalDecreaseStrategy.min_decrease_percent self)
                  current_price) 2) ∧
  gtb (100 * (0.1 / 100)) 0.01 = true ∧
  fst (MinimalDecreaseStrategy.calculate_bid min_strategy_01 100)
  = 99.9%float ∧
  gtb (10 * (0.1 / 100)) 0.01 = false ∧
  fst (MinimalDecreaseStrategy.calculate_bid min_strategy_01 10)
  = 9.99%float ∧
  round (100 - claimed_decrement 0.01 0.1 100) 2 = 99.9%float ∧
  round (10 - claimed_decrement 0.01 0.1 10) 2 = 9.99%float.
Proof.
  split_and!; try (vm_compute; reflexivity).
  apply minimal_calculate_bid_value.
Qed.

(** C3, counterexample: with [min_decrease_value = 0.01] and
    [min_decrease_percent = 2.5], at [current_price = 28.2] the
    percentage wins under both readings, but
    [28.2 * (2.5 / 100) = 0.7050000000000001] while
    [28.2 * 2.5 / 100 = 0.705]: [calculate_bid] returns 27.49, and
    [round(current_price - current_price * min_decrease_percent / 100,
    2)] is 27.5. *)
Lemma minimal_calculate_bid_order_matters :
  let self := MinimalDecreaseStrategy.init (Some 0.01%float)
                (Some 2.5%float) in
  gtb 2.5 0 = true ∧
  gtb (28.2 * (2.5 / 100)) 0.01 = true ∧
  gtb (28.2 * 2.5 / 100) 0.01 = true ∧
  fst (MinimalDecreaseStrategy.calculate_bid self 28.2) = 27.49%float ∧
  round (28.2 - claimed_decrement 0.01 2.5 28.2) 2 = 27.5%float ∧
  (27.49 <? 27.5)%float = true ∧
  fst (MinimalDecreaseStrategy.calculate_bid self 28.2)
  ≠ round (28.2 - claimed_decrement 0.01 2.5 28.2) 2.
Proof.
  cbv zeta. split_and!; try (vm_compute; reflexivity).
  intros H.
  apply (f_equal (λ x : float, (x <? 27.5)%float)) in H.
  vm_compute in H. discriminate H.
Qed.

(* ------------------------------------------------------------------ *)
(** ** What one [process_bid] call can do *)

Lemma minimal_should_bid_blocked self price last floor :
  baseline_blocks price last floor →
  fst (MinimalDecreaseStrategy.should_bid self price last floor) = false.
Proof.
  unfold MinimalDecreaseStrategy.should_bid.
  intros [(b & -> & Hb) | (m & -> & Hm)].
  - by rewrite Hb.
  - rewrite Hm. destruct last as [b|]; [|done].
    by destruct (b <=? price)%float.
Qed.

Lemma timed_should_bid_blocked rnd self secs price last floor :
  baseline_blocks price last floor →
  ∃ evs,
    TimedStrategy.should_bid rnd self secs price last floor
    = Ok (false, self, evs).
Proof.
  intros Hb. unfold TimedStrategy.should_bid.
  pose proof (minimal_should_bid_blocked
                (MinimalDecreaseStrategy.init None None) _ _ _ Hb) as H.
  destruct (MinimalDecreaseStrategy.should_bid _ price last floor)
    as [ok evs].
  cbn in H. subst ok. by eexists.
Qed.

(** A call that accepts no bid leaves the registry and the strategy
    objects as they were. *)
Lemma call_should_bid_false rnd h ref p h' evs :
  call_should_bid rnd h ref p = Ok (false, h', evs) → h' = h.
Proof.
  unfold call_should_bid. intros H.
  destruct (h !! ref) as [[s|s]|] eqn:Hs; [| |done].
  - destruct (MinimalDecreaseStrategy.should_bid _ _ _ _). by simplify_eq.
  - destruct (Params.seconds_remaining p); [|done].
    unfold TimedStrategy.should_bid in H.
    destruct (MinimalDecreaseStrategy.should_bid _ _ _ _) as [[] ?];
      cbn in H.
    + destruct (TimedStrategy.scan _ _ _ _ _) as [[i|]|]; simplify_eq.
      by apply list_insert_id.
    + simplify_eq. by apply list_insert_id.
Qed.

Lemma call_should_bid_blocked rnd h ref p b h' evs :
  baseline_blocks (Params.current_price p) (Params.my_last_bid p)
    (Params.min_price p) →
  call_should_bid rnd h ref p = Ok (b, h', evs) → b = false.
Proof.
  intros Hb. unfold call_should_bid.
  destruct (h !! ref) as [[s|s]|]; [| |done].
  - pose proof (minimal_should_bid_blocked s _ _ _ Hb) as H.
    destruct (MinimalDecreaseStrategy.should_bid _ _ _ _) as [ok ?].
    cbn in H. intros; by simplify_eq.
  - destruct (Params.seconds_remaining p) as [secs|]; [|done].
    destruct (timed_should_bid_blocked rnd s secs _ _ _ Hb) as [evs' ->].
    intros; by simplify_eq.
Qed.

(** Either no bid is accepted and nothing but the event sink changes,
    or the strategy of a registered, uncapped auction agreed and the
    bid it computed is recorded. *)
Lemma process_bid_cases rnd now id price secs kw st :
  let '(r, st') := process_bid rnd now id price secs kw st in
  ((∀ v, r ≠ Ok (Some v)) ∧
   active_auctions st' = active_auctions st ∧ heap st' = heap st) ∨
  (∃ a v evs1 evs2,
     active_auctions st !! id = Some a ∧
     max_bids_reached a = false ∧
     call_should_bid rnd (heap st) (Auction.strategy a)
       (strategy_params a price secs kw) = Ok (true, heap st', evs1) ∧
     call_calculate_bid (heap st') (Auction.strategy a)
       (strategy_params a price secs kw) = Ok (v, evs2) ∧
     r = Ok (Some v) ∧
     active_auctions st'
     = <[id := record_bid now price v a]> (active_auctions st)).
Proof.
  unfold process_bid.
  destruct (active_auctions st !! id) as [a|] eqn:Ha; [|by left].
  destruct (max_bids_reached a) eqn:Hcap; [by left|].
  destruct (call_should_bid _ _ _ _) as [[[b h1] evs1]|e] eqn:Hs; [|by left].
  destruct b; cbn.
  - destruct (call_calculate_bid _ _ _) as [[v evs2]|e] eqn:Hc; [|].
    + right. by exists a, v, evs1, evs2.
    + left. split_and!; try done.
      unfold call_should_bid, call_calculate_bid in *.
      destruct (heap st !! Auction.strategy a) as [[s|s]|] eqn:Hh; [| |done].
      * destruct (MinimalDecreaseStrategy.should_bid _ _ _ _).
        simplify_eq. by rewrite Hh in Hc.
      * destruct (Params.seconds_remaining _); [|done].
        destruct (TimedStrategy.should_bid _ _ _ _ _ _) as [[[??]?]|];
          simplify_eq.
        rewrite list_lookup_insert_eq in Hc; [done|].
        by eapply lookup_lt_Some.
  - left. split_and!; try done. cbn. by eapply call_should_bid_false.
Qed.

Lemma process_bid_blocked rnd now id price secs kw st :
  (∀ a, active_auctions st !! id = Some a →
        baseline_blocks price
          (Params.my_last_bid (strategy_params a price secs kw))
          (Params.min_price (strategy_params a price secs kw))) →
  let '(r, st') := process_bid rnd now id price secs kw st in
  (∀ v, r ≠ Ok (Some v)) ∧
  active_auctions st' = active_auctions st ∧ heap st' = heap st.
Proof.
  intros Hb. pose proof (process_bid_cases rnd now id price secs kw st) as H.
  destruct (process_bid _ _ _ _ _ _ _) as [r st'].
  destruct H as [H | (a & v & evs1 & evs2 & Ha & _ & Hs & _)]; [done|].
  by apply (call_should_bid_blocked _ _ _ _ _ _ _ (Hb a Ha)) in Hs.
Qed.

(** A call on one id leaves the records of the other ids alone. *)
Lemma process_other_id c st id :
  Call.auction_id c ≠ id →
  active_auctions (snd (process c st)) !! id = active_auctions st !! id.
Proof.
  intros Hne. unfold process.
  pose proof (process_bid_cases (Call.rnd c) (Call.now c) (Call.auction_id c)
                (Call.current_price c) (Call.seconds_remaining c)
                (Call.kwargs c) st) as H.
  destruct (process_bid _ _ _ _ _ _ _) as [r st']. cbn.
  destruct H as [(_ & -> & _) | (a & v & ? & ? & _ & _ & _ & _ & _ & ->)];
    [done|].
  by rewrite lookup_insert_ne.
Qed.

(* ------------------------------------------------------------------ *)
(** ** Baseline eligibility *)

(** C5: for both strategies and all inputs, [should_bid] answers false
    when [my_last_bid] is not [None] and [my_last_bid <= current_price],
    and when [min_price] is not [None] and [current_price <= min_price]
    (the timed strategy then also keeps its cursor).  Consequently, of
    two consecutive [process_bid] calls on one auction at the same
    [current_price], the second, when the [my_last_bid] it forwards is
    [<= current_price], produces no bid and leaves the registry and the
    strategy objects as the first call left them. *)
Theorem baseline_rules_block_bids :
  (∀ self price last floor,
     baseline_blocks price last floor →
     fst (MinimalDecreaseStrategy.should_bid self price last floor) = false) ∧
  (∀ rnd self secs price last floor,
     baseline_blocks price last floor →
     ∃ evs, TimedStrategy.should_bid rnd self secs price last floor
            = Ok (false, self, evs)) ∧
  (∀ c1 c2 st a b,
     Call.auction_id c2 = Call.auction_id c1 →
     Call.current_price c2 = Call.current_price c1 →
     active_auctions (snd (process c1 st)) !! Call.auction_id c2 = Some a →
     Params.my_last_bid
       (strategy_params a (Call.current_price c2) (Call.seconds_remaining c2)
          (Call.kwargs c2)) = Some b →
     (b <=? Call.current_price c2)%float = true →
     let '(r2, st2) := process c2 (snd (process c1 st)) in
     (∀ v, r2 ≠ Ok (Some v)) ∧
     active_auctions st2 = active_auctions (snd (process c1 st)) ∧
     heap st2 = heap (snd (process c1 st))).
Proof.
  split_and!.
  - apply minimal_should_bid_blocked.
  - apply timed_should_bid_blocked.
  - intros c1 c2 st a b _ _ Ha Hlast Hle. unfold process at 1.
    apply process_bid_blocked. intros a' Ha'.
    rewrite Ha in Ha'. simplify_eq. left. eauto.
Qed.

Lemma baseline_rules_block_bids_witness :
  (baseline_blocks 100 (Some 99%float) (Some 90%float) ∧
   fst (MinimalDecreaseStrategy.should_bid min_strategy_01 100
          (Some 99%float) (Some 90%float)) = false) ∧
  (baseline_blocks 89 (Some 95%float) (Some 90%float) ∧
   ∃ evs,
     TimedStrategy.should_bid (λ _, 0%Z)
       (TimedStrategy.init None false 5) 30 89 (Some 95%float)
       (Some 90%float)
     = Ok (false, TimedStrategy.init None false 5, evs)) ∧
  (let st1 := snd (process (call_on_A 100 None)
                     (minimal_scenario 0.01 None None)) in
   (Auction.last_bid <$> active_auctions st1 !! "A")
   = Some (Some 99.99%float) ∧
   (99.99 <=? 100)%float = true ∧
   let '(r2, st2) := process (call_on_A 100 None) st1 in
   (∀ v, r2 ≠ Ok (Some v)) ∧
   active_auctions st2 = active_auctions st1 ∧
   heap st2 = heap st1).
Proof.
  destruct baseline_rules_block_bids as (H1 & H2 & H3).
  assert (Hb1 : baseline_blocks 100 (Some 99%float) (Some 90%float))
    by (left; by eexists).
  assert (Hb2 : baseline_blocks 89 (Some 95%float) (Some 90%float))
    by (right; by eexists).
  split; [split; [exact Hb1 | exact (H1 _ _ _ _ Hb1)]|].
  split; [split; [exact Hb2 | exact (H2 _ _ _ _ _ _ Hb2)]|].
  split; [vm_compute; reflexivity|].
  split; [vm_compute; reflexivity|].
  apply (H3 (call_on_A 100 None) (call_on_A 100 None)
            (minimal_scenario 0.01 None None)
            (record_bid 1 100 99.99
               (fresh_auction 0 0 None None None)) 99.99%float);
    vm_compute; reflexivity.
Defined.

(* ------------------------------------------------------------------ *)
(** ** The cap *)

Lemma process_capped c st id a :
  active_auctions st !! id = Some a →
  max_bids_reached a = true →
  active_auctions (snd (process c st)) !! id = Some a ∧
  (Call.auction_id c = id → fst (process c st) = Ok None).
Proof.
  intros Ha Hcap. destruct (decide (Call.auction_id c = id)) as [Heq|Hne].
  - unfold process. rewrite Heq.
    rewrite (process_bid_capped _ _ _ _ _ _ _ _ Ha Hcap). by cbn.
  - rewrite process_other_id by done. by split.
Qed.

Lemma process_all_capped calls : ∀ st id a,
  active_auctions st !! id = Some a →
  max_bids_reached a = true →
  let '(rs, st') := process_all calls st in
  active_auctions st' !! id = Some a ∧
  Forall2 (λ c r, Call.auction_id c = id → r = Ok None) calls rs.
Proof.
  induction calls as [|c calls IH]; intros st id a Ha Hcap; cbn.
  - by split.
  - destruct (process_capped c st id a Ha Hcap) as [Ha1 Hr].
    destruct (process c st) as [r st1]. cbn in *.
    specialize (IH st1 id a Ha1 Hcap).
    destruct (process_all calls st1) as [rs st2].
    destruct IH as [? ?]. split; [done|]. by constructor.
Qed.

Lemma max_bids_reached_true a m :
  Auction.max_bids a = Some m → (m ≤ Auction.bids_count a)%Z →
  max_bids_reached a = true.
Proof. unfold max_bids_reached. intros -> ?. by apply Z.leb_le. Qed.

(** C8: once an auction has [bids_count >= max_bids], a [process_bid]
    call on it returns "no bid" and changes neither the registry nor any
    strategy object: the only effect is the manager's own event, none
    of the strategy's.  Hence, in every later sequence of calls, every
    call on that auction returns "no bid" and its record stays as it
    was.  With [max_bids = 1]: after one accepted bid every later call
    on the auction, at any price, returns "no bid" and [bids_count]
    stays 1. *)
Theorem cap_reached_no_more_bids :
  (∀ rnd now id price secs kw st a m,
     active_auctions st !! id = Some a →
     Auction.max_bids a = Some m →
     (m ≤ Auction.bids_count a)%Z →
     ∃ st',
       process_bid rnd now id price secs kw st = (Ok None, st') ∧
       active_auctions st' = active_auctions st ∧
       heap st' = heap st ∧
       log st' = log st ++ [(INFO, MsgMaxBids id)]) ∧
  (∀ calls st id a m,
     active_auctions st !! id = Some a →
     Auction.max_bids a = Some m →
     (m ≤ Auction.bids_count a)%Z →
     let '(rs, st') := process_all calls st in
     active_auctions st' !! id = Some a ∧
     Forall2 (λ c r, Call.auction_id c = id → r = Ok None) calls rs) ∧
  (∀ c calls st a v st1,
     active_auctions st !! Call.auction_id c = Some a →
     Auction.max_bids a = Some 1%Z →
     Auction.bids_count a = 0%Z →
     process c st = (Ok (Some v), st1) →
     let '(rs, st') := process_all calls st1 in
     (Auction.bids_count <$> active_auctions st' !! Call.auction_id c)
     = Some 1%Z ∧
     Forall2 (λ c' r, Call.auction_id c' = Call.auction_id c → r = Ok None)
       calls rs).
Proof.
  split_and!.
  - intros rnd now id price secs kw st a m Ha Hm Hle. eexists. split.
    + apply (process_bid_capped _ _ _ _ _ _ _ a Ha).
      by eapply max_bids_reached_true.
    + by cbn.
  - intros calls st id a m Ha Hm Hle.
    apply process_all_capped; [done|]. by eapply max_bids_reached_true.
  - intros c calls st a v st1 Ha Hm Hc Hp. unfold process in Hp.
    pose proof (process_bid_cases (Call.rnd c) (Call.now c)
                  (Call.auction_id c) (Call.current_price c)
                  (Call.seconds_remaining c) (Call.kwargs c) st) as H.
    rewrite Hp in H.
    destruct H as [(Hno & _) | (a' & v' & ? & ? & Ha' & _ & _ & _ & Hv & Hreg)];
      [by destruct (Hno v)|].
    rewrite Ha in Ha'. simplify_eq.
    pose proof (process_all_capped calls st1 (Call.auction_id c)
                  (record_bid (Call.now c) (Call.current_price c) v' a')) as H.
    destruct (process_all calls st1) as [rs st'].
    destruct H as [H1 H2].
    + rewrite Hreg. apply lookup_insert_eq.
    + unfold max_bids_reached. cbn. rewrite Hm, Hc. done.
    + split; [|done]. rewrite H1. cbn. by rewrite Hc.
Qed.

Lemma cap_reached_no_more_bids_witness :
  let st := minimal_scenario 0.01 None (Some 1%Z) in
  let st1 := snd (process (call_on_A 100 None) st) in
  let calls := [call_on_A 99.99 None; call_on_A 50 (Some 3%Z)] in
  (∃ st',
     process_bid (λ _, 0%Z) 5 "A" 42 None Kwargs.empty st1 = (Ok None, st') ∧
     active_auctions st' = active_auctions st1 ∧
     heap st' = heap st1 ∧
     log st' = log st1 ++ [(INFO, MsgMaxBids "A")]) ∧
  (let '(rs, st') := process_all calls st1 in
   active_auctions st' !! "A" = active_auctions st1 !! "A" ∧
   Forall2 (λ c r, Call.auction_id c = "A" → r = Ok None) calls rs) ∧
  (process (call_on_A 100 None) st = (Ok (Some 99.99%float), st1) ∧
   let '(rs, st') := process_all calls st1 in
   (Auction.bids_count <$> active_auctions st' !! "A") = Some 1%Z ∧
   Forall2 (λ c' r, Call.auction_id c' = "A" → r = Ok None) calls rs).
Proof.
  destruct cap_reached_no_more_bids as (H1 & H2 & H3).
  set (a1 := record_bid 1 100 99.99 (fresh_auction 0 0 None (Some 1%Z) None)).
  cbv zeta. split; [|split].
  - apply (H1 _ _ _ _ _ _ _ a1 1%Z); vm_compute; first [reflexivity | congruence].
  - assert (Ha : active_auctions
                   (snd (process (call_on_A 100 None)
                           (minimal_scenario 0.01 None (Some 1%Z)))) !! "A"
                 = Some a1) by (vm_compute; reflexivity).
    rewrite Ha.
    apply (H2 _ _ "A" a1 1%Z Ha); vm_compute; first [reflexivity | congruence].
  - split; [vm_compute; reflexivity|].
    apply (H3 (call_on_A 100 None) _
              (minimal_scenario 0.01 None (Some 1%Z))
              (fresh_auction 0 0 None (Some 1%Z) None) 99.99%float);
      vm_compute; reflexivity.
Defined.

(* ------------------------------------------------------------------ *)
(** ** The invariants of an auction record *)

Lemma fresh_auction_ok now ref min_price max_bids descr :
  auction_ok (fresh_auction now ref min_price max_bids descr).
Proof.
  split_and!; [reflexivity | reflexivity |]. intros m _ Hm. by cbn.
Qed.

Lemma record_bid_ok now price v a :
  auction_ok a → max_bids_reached a = false →
  auction_ok (record_bid now price v a).
Proof.
  intros (Hc & Hl & Hcap) Hreach. split_and!.
  - unfold count_matches_history in *. cbn.
    rewrite length_app, Hc. cbn. lia.
  - unfold last_bid_matches_history. cbn. by rewrite last_snoc.
  - intros m Hm Hpos. cbn in *. unfold max_bids_reached in Hreach.
    rewrite Hm in Hreach. apply Z.leb_gt in Hreach. lia.
Qed.

Lemma step_auction_ok o st :
  (∀ id a, active_auctions st !! id = Some a → auction_ok a) →
  ∀ id a, active_auctions (step o st) !! id = Some a → auction_ok a.
Proof.
  intros Hst id a. destruct o as [s|now id' ref mp mb descr|c|id'|id']; cbn.
  - apply Hst.
  - rewrite lookup_insert. case_decide.
    + intros; simplify_eq. apply fresh_auction_ok.
    + apply Hst.
  - unfold process.
    pose proof (process_bid_cases (Call.rnd c) (Call.now c)
                  (Call.auction_id c) (Call.current_price c)
                  (Call.seconds_remaining c) (Call.kwargs c) st) as H.
    destruct (process_bid _ _ _ _ _ _ _) as [r st']. cbn.
    destruct H as [(_ & -> & _)
                  | (a' & v & ? & ? & Ha' & Hcap & _ & _ & _ & ->)];
      [apply Hst|].
    rewrite lookup_insert. case_decide.
    + intros; simplify_eq. apply record_bid_ok; [by eapply Hst | done].
    + apply Hst.
  - unfold get_auction_status.
    destruct (active_auctions st !! id'); apply Hst.
  - unfold remove_auction.
    destruct (active_auctions st !! id') eqn:Hid; cbn; [|apply Hst].
    rewrite lookup_delete_Some. intros [_ ?]. by eapply Hst.
Qed.

Lemma run_auction_ok ops : ∀ st,
  (∀ id a, active_auctions st !! id = Some a → auction_ok a) →
  ∀ id a, active_auctions (run ops st) !! id = Some a → auction_ok a.
Proof.
  induction ops as [|o ops IH]; intros st Hst; cbn; [done|].
  apply IH. by apply step_auction_ok.
Qed.

(** C4 (as the code has it): in every state reached from a new manager
    by any finite sequence of operations (registrations, [process_bid]
    calls with any arguments, status queries, removals), every
    registered auction has [bids_count] equal to the length of
    [bid_history], [last_bid] equal to the value of the last history
    entry ([None] when the history is empty), and
    [bids_count <= max_bids] whenever [max_bids] is set and not
    negative. *)
Theorem auction_invariants heap0 ops id a :
  active_auctions (run ops (BiddingManager.init heap0)) !! id = Some a →
  count_matches_history a ∧
  last_bid_matches_history a ∧
  (∀ m, Auction.max_bids a = Some m → (0 ≤ m)%Z →
        (Auction.bids_count a ≤ m)%Z).
Proof.
  intros H. eapply (run_auction_ok ops (BiddingManager.init heap0)); [|exact H].
  intros id' a'. cbn. by rewrite lookup_empty.
Qed.

Lemma auction_invariants_witness :
  let ops := [OpNewStrategy (Minimal min_strategy_01);
              OpRegister 0 "A" 0 (Some 90%float) (Some 2%Z) None;
              OpProcess (call_on_A 100 None);
              OpProcess (call_on_A 100 None);
              OpProcess (call_on_A 95 (Some 10%Z))] in
  let a := record_bid 1 95 94.91
             (record_bid 1 100 99.9
                (fresh_auction 0 0 (Some 90%float) (Some 2%Z) None)) in
  active_auctions (run ops (BiddingManager.init [])) !! "A" = Some a ∧
  count_matches_history a ∧
  last_bid_matches_history a ∧
  (∀ m, Auction.max_bids a = Some m → (0 ≤ m)%Z →
        (Auction.bids_count a ≤ m)%Z).
Proof.
  cbv zeta.
  assert (H : active_auctions
                (run [OpNewStrategy (Minimal min_strategy_01);
                      OpRegister 0 "A" 0 (Some 90%float) (Some 2%Z) None;
                      OpProcess (call_on_A 100 None);
                      OpProcess (call_on_A 100 None);
                      OpProcess (call_on_A 95 (Some 10%Z))] (BiddingManager.init []))
                !! "A"
              = Some (record_bid 1 95 94.91
                        (record_bid 1 100 99.9
                           (fresh_auction 0 0 (Some 90%float) (Some 2%Z)
                              None))))
    by (vm_compute; reflexivity).
  split; [exact H|]. exact (auction_invariants [] _ "A" _ H).
Defined.

(** C4, counterexample: an auction registered with [max_bids = -1] has
    [bids_count = 0 > max_bids] from the start, and still has after a
    [process_bid] call (which returns "no bid"). *)
Lemma negative_cap_exceeded :
  let st := run [OpNewStrategy (Minimal min_strategy_01);
                 OpRegister 0 "A" 0 None (Some (-1)%Z) None;
                 OpProcess (call_on_A 100 None)] (BiddingManager.init []) in
  ∃ a, active_auctions st !! "A" = Some a ∧
       Auction.max_bids a = Some (-1)%Z ∧
       Auction.bids_count a = 0%Z ∧
       ¬ within_cap a.
Proof.
  eexists. split; [vm_compute; reflexivity|].
  split_and!; [reflexivity | reflexivity |].
  intros H. specialize (H (-1)%Z eq_refl). cbn in H. lia.
Qed.

(* ------------------------------------------------------------------ *)
(** ** What an accepted bid records *)

Lemma not_baseline_blocks price last floor :
  ¬ baseline_blocks price last floor →
  (∀ b, last = Some b → (b <=? price)%float = false) ∧
  (∀ m, floor = Some m → (price <=? m)%float = false).
Proof.
  intros Hn. split.
  - intros b ->. destruct (b <=? price)%float eqn:H; [|done].
    destruct Hn. left. eauto.
  - intros m ->. destruct (price <=? m)%float eqn:H; [|done].
    destruct Hn. right. eauto.
Qed.





(* ------------------------------------------------------------------ *)
(** ** The scan of the timed strategy *)

(** Whether the jitter can be drawn depends on the configuration only. *)
Lemma adjusted_bid_time_ok rnd self i bid_time threshold j bid_time' :
  TimedStrategy.adjusted_bid_time rnd self i bid_time = Ok threshold →
  ∃ threshold',
    TimedStrategy.adjusted_bid_time rnd self j bid_time' = Ok threshold'.
Proof.
  unfold TimedStrategy.adjusted_bid_time, TimedStrategy.randint.
  destruct (TimedStrategy.random_delay self); [|by eauto].
  destruct (TimedStrategy.max_random_delay self <? 0)%Z; [done|by eauto].
Qed.

(** The scan from position [k] over the rest [l] of the schedule. *)
Lemma scan_finds rnd self secs : ∀ l k i bid_time threshold,
  l !! i = Some bid_time →
  TimedStrategy.adjusted_bid_time rnd self (k + i) bid_time = Ok threshold →
  (secs ≤ threshold)%Z →
  (TimedStrategy.last_bid_time_index self < Z.of_nat (k + i))%Z →
  (∀ j bt thr, j < i → l !! j = Some bt →
     TimedStrategy.adjusted_bid_time rnd self (k + j) bt = Ok thr →
     ¬ ((secs ≤ thr)%Z ∧
        (TimedStrategy.last_bid_time_index self < Z.of_nat (k + j))%Z)) →
  TimedStrategy.scan rnd self secs k l = Ok (Some (k + i)).
Proof.
  induction l as [|bt0 l IH]; intros k i bid_time threshold Hl Ha Hs Hc Hfirst;
    [done|].
  destruct i as [|i]; cbn in Hl |- *.
  - simplify_eq. rewrite Nat.add_0_r in *. rewrite Ha.
    apply Z.leb_le in Hs. apply Z.ltb_lt in Hc. by rewrite Hs, Hc.
  - destruct (adjusted_bid_time_ok _ _ _ _ _ k bt0 Ha) as [thr0 Hthr0].
    rewrite Hthr0.
    destruct ((secs <=? thr0)%Z
              && (TimedStrategy.last_bid_time_index self <? Z.of_nat k)%Z)
      eqn:Hcond.
    + apply andb_true_iff in Hcond as [H1 H2].
      apply Z.leb_le in H1. apply Z.ltb_lt in H2.
      destruct (Hfirst 0 bt0 thr0); [lia | done | by rewrite Nat.add_0_r |].
      rewrite Nat.add_0_r. done.
    + replace (k + S i) with (S k + i) in * by lia.
      apply (IH (S k) i bid_time threshold); try done.
      intros j bt thr Hj Hlj Haj. replace (S k + j) with (k + S j) in * by lia.
      apply (Hfirst (S j) bt thr); [lia | done | done].
Qed.

Lemma scan_found rnd self secs : ∀ l k n,
  TimedStrategy.scan rnd self secs k l = Ok (Some n) →
  ∃ i bid_time threshold,
    n = k + i ∧ l !! i = Some bid_time ∧
    TimedStrategy.adjusted_bid_time rnd self n bid_time = Ok threshold ∧
    (secs ≤ threshold)%Z ∧
    (TimedStrategy.last_bid_time_index self < Z.of_nat n)%Z ∧
    (∀ j bt thr, j < i → l !! j = Some bt →
       TimedStrategy.adjusted_bid_time rnd self (k + j) bt = Ok thr →
       ¬ ((secs ≤ thr)%Z ∧
          (TimedStrategy.last_bid_time_index self < Z.of_nat (k + j))%Z)).
Proof.
  induction l as [|bt0 l IH]; intros k n H; [done|]. cbn in H.
  destruct (TimedStrategy.adjusted_bid_time rnd self k bt0) as [thr0|]
    eqn:Hthr0; [|done].
  destruct ((secs <=? thr0)%Z
            && (TimedStrategy.last_bid_time_index self <? Z.of_nat k)%Z)
    eqn:Hcond.
  - simplify_eq. apply andb_true_iff in Hcond as [H1 H2].
    apply Z.leb_le in H1. apply Z.ltb_lt in H2.
    exists 0, bt0, thr0. rewrite Nat.add_0_r. split_and!; try done. lia.
  - destruct (IH _ _ H) as (i & bt & thr & -> & Hl & Ha & Hs & Hc & Hfirst).
    exists (S i), bt, thr. split_and!; try done; [lia|].
    intros [|j] bt' thr' Hj Hlj Haj [H1 H2].
    + cbn in Hlj. simplify_eq. rewrite Nat.add_0_r in *.
      rewrite Hthr0 in Haj. simplify_eq.
      apply andb_false_iff in Hcond as [Hc1|Hc2].
      * apply Z.leb_gt in Hc1. lia.
      * apply Z.ltb_ge in Hc2. lia.
    + cbn in Hlj. apply (Hfirst j bt' thr'); [lia | done | |].
      * by replace (S k + j) with (k + S j) by lia.
      * by replace (S k + j) with (k + S j) by lia.
Qed.

Lemma baseline_passes price last floor :
  ¬ baseline_blocks price last floor →
  MinimalDecreaseStrategy.should_bid (MinimalDecreaseStrategy.init None None)
    price last floor = (true, []).
Proof.
  intros Hn. apply not_baseline_blocks in Hn as [Hl Hf].
  unfold MinimalDecreaseStrategy.should_bid.
  destruct last as [b|]; [rewrite (Hl b eq_refl)|];
    (destruct floor as [m|]; [by rewrite (Hf m eq_refl)|done]).
Qed.

Lemma should_bid_fires rnd self secs price last floor i :
  ¬ baseline_blocks price last floor →
  fires_at rnd self secs i →
  (∀ j, j < i → ¬ fires_at rnd self secs j) →
  TimedStrategy.should_bid rnd self secs price last floor
  = Ok (true, TimedStrategy.set_last_bid_time_index (Z.of_nat i) self,
        [(INFO, MsgScheduled secs)]).
Proof.
  intros Hn (bt & thr & Hl & Ha & Hs & Hc) Hfirst.
  unfold TimedStrategy.should_bid. rewrite (baseline_passes _ _ _ Hn). cbn.
  rewrite (scan_finds rnd self secs (TimedStrategy.bid_times self) 0 i bt thr);
    try done.
  intros j bt' thr' Hj Hlj Haj [H1 H2]. apply (Hfirst j Hj).
  by exists bt', thr'.
Qed.

Lemma should_bid_fired rnd self secs price last floor self' evs :
  TimedStrategy.should_bid rnd self secs price last floor = Ok (true, self', evs) →
  ∃ i, fires_at rnd self secs i ∧
       (∀ j, j < i → ¬ fires_at rnd self secs j) ∧
       self' = TimedStrategy.set_last_bid_time_index (Z.of_nat i) self.
Proof.
  unfold TimedStrategy.should_bid.
  destruct (MinimalDecreaseStrategy.should_bid _ _ _ _) as [[] evs0]; cbn;
    [|done].
  destruct (TimedStrategy.scan rnd self secs 0 (TimedStrategy.bid_times self)) as [[n|]|] eqn:Hscan;
    [|done|done].
  intros ?; simplify_eq.
  destruct (scan_found _ _ _ _ _ _ Hscan)
    as (i & bt & thr & -> & Hl & Ha & Hs & Hc & Hfirst).
  exists i. cbn in *. split_and!; try done.
  - by exists bt, thr.
  - intros j Hj (bt' & thr' & Hlj & Haj & H1 & H2).
    by apply (Hfirst j bt' thr' Hj Hlj Haj).
Qed.

Lemma should_bid_not_fired rnd self secs price last floor self' evs :
  TimedStrategy.should_bid rnd self secs price last floor = Ok (false, self', evs) →
  self' = self.
Proof.
  unfold TimedStrategy.should_bid.
  destruct (MinimalDecreaseStrategy.should_bid _ _ _ _) as [[] evs0]; cbn.
  - destruct (TimedStrategy.scan rnd self secs 0 (TimedStrategy.bid_times self)) as [[n|]|];
      intros; by simplify_eq.
  - intros; by simplify_eq.
Qed.

(** One call of the life of the object. *)
Lemma timed_step_cursor c self :
  let '(fired, self') := timed_step c self in
  match fired with
  | Some i =>
      (TimedStrategy.last_bid_time_index self < i)%Z ∧ TimedStrategy.last_bid_time_index self' = i
  | None => self' = self
  end.
Proof.
  destruct c as [rnd secs price last floor|]; cbn; [|done].
  destruct (TimedStrategy.should_bid rnd self secs price last floor)
    as [[[[] self'] evs]|] eqn:H; [| |done].
  - destruct (should_bid_fired _ _ _ _ _ _ _ _ H)
      as (i & (bt & thr & _ & _ & _ & Hc) & _ & ->).
    by cbn.
  - by apply should_bid_not_fired in H.
Qed.

Lemma timed_run_cursor calls : ∀ self,
  let '(fired, self') := timed_run calls self in
  (TimedStrategy.last_bid_time_index self
   ≤ TimedStrategy.last_bid_time_index self')%Z ∧
  StronglySorted Z.lt fired ∧
  Forall (λ i, TimedStrategy.last_bid_time_index self < i
               ≤ TimedStrategy.last_bid_time_index self')%Z
    fired.
Proof.
  induction calls as [|c calls IH]; intros self; cbn.
  - split_and!; [lia | constructor | constructor].
  - pose proof (timed_step_cursor c self) as Hstep.
    destruct (timed_step c self) as [fired self1].
    specialize (IH self1).
    destruct (timed_run calls self1) as [rest self2].
    destruct IH as (Hle & Hsorted & Hall).
    destruct fired as [i|]; cbn.
    + destruct Hstep as [Hlt Hi]. split_and!.
      * lia.
      * constructor; [done|].
        eapply Forall_impl; [exact Hall|]. cbn. intros; lia.
      * constructor; [lia|].
        eapply Forall_impl; [exact Hall|]. cbn. intros; lia.
    + by subst self1.
Qed.

Lemma StronglySorted_lt_NoDup (l : list Z) :
  StronglySorted Z.lt l → NoDup l.
Proof.
  induction 1 as [|x l Hs IH Hall]; constructor; [|done].
  intros Hin. rewrite Forall_forall in Hall.
  specialize (Hall x Hin). lia.
Qed.

(** C7: once the baseline check has passed, [should_bid] answers true
    at the first position [i] of [bid_times], in declared order, with
    [i > last_bid_time_index] and [seconds_remaining <=] the threshold
    of that position (with its jitter when jitter is on), and sets
    [last_bid_time_index] to [i]; it answers true in no other way.
    Over any sequence of calls on one object, [last_bid_time_index]
    never decreases, the indices fired are strictly increasing, and so
    each index fires at most once. *)
Theorem timed_fires_first_unconsumed_once :
  (∀ rnd self secs price last floor i,
     ¬ baseline_blocks price last floor →
     fires_at rnd self secs i →
     (∀ j, j < i → ¬ fires_at rnd self secs j) →
     TimedStrategy.should_bid rnd self secs price last floor
     = Ok (true, TimedStrategy.set_last_bid_time_index (Z.of_nat i) self,
           [(INFO, MsgScheduled secs)])) ∧
  (∀ rnd self secs price last floor self' evs,
     TimedStrategy.should_bid rnd self secs price last floor = Ok (true, self', evs) →
     ∃ i, fires_at rnd self secs i ∧
          (∀ j, j < i → ¬ fires_at rnd self secs j) ∧
          self' = TimedStrategy.set_last_bid_time_index (Z.of_nat i) self) ∧
  (∀ calls self,
     let '(fired, self') := timed_run calls self in
     (TimedStrategy.last_bid_time_index self
   ≤ TimedStrategy.last_bid_time_index self')%Z ∧
     StronglySorted Z.lt fired ∧
     NoDup fired ∧
     Forall (λ i, TimedStrategy.last_bid_time_index self < i
               ≤ TimedStrategy.last_bid_time_index self')%Z
       fired).
Proof.
  split_and!.
  - apply should_bid_fires.
  - apply should_bid_fired.
  - intros calls self. pose proof (timed_run_cursor calls self) as H.
    destruct (timed_run calls self) as [fired self'].
    destruct H as (? & ? & ?). split_and!; try done.
    by apply StronglySorted_lt_NoDup.
Qed.

Lemma timed_fires_first_unconsumed_once_witness :
  let rnd : nat → Z := λ _, 7%Z in
  let self := TimedStrategy.set_last_bid_time_index 0
                (TimedStrategy.init (Some [60; 30; 10; 3]%Z) true 5) in
  let calls := (λ s, ShouldBid rnd s 100 None (Some 90%float))
               <$> [120; 60; 40; 30; 15; 10; 5; 3; 1]%Z in
  (¬ baseline_blocks 100 None (Some 90%float) ∧
   fires_at rnd self 31 1 ∧
   (∀ j, j < 1 → ¬ fires_at rnd self 31 j) ∧
   TimedStrategy.should_bid rnd self 31 100 None (Some 90%float)
   = Ok (true, TimedStrategy.set_last_bid_time_index 1 self, [(INFO, MsgScheduled 31)])) ∧
  (∃ i, fires_at rnd self 31 i ∧
        (∀ j, j < i → ¬ fires_at rnd self 31 j) ∧
        TimedStrategy.set_last_bid_time_index 1 self
        = TimedStrategy.set_last_bid_time_index (Z.of_nat i) self) ∧
  (let '(fired, self') :=
     timed_run calls (TimedStrategy.init (Some [60; 30; 10; 3]%Z) false 5) in
   (-1 ≤ TimedStrategy.last_bid_time_index self')%Z ∧
   StronglySorted Z.lt fired ∧
   NoDup fired ∧
   Forall (λ i, -1 < i ≤ TimedStrategy.last_bid_time_index self')%Z fired).
Proof.
  destruct timed_fires_first_unconsumed_once as (H1 & H2 & H3).
  cbv zeta.
  set (rnd := λ _ : nat, 7%Z).
  set (self := TimedStrategy.set_last_bid_time_index 0
                 (TimedStrategy.init (Some [60; 30; 10; 3]%Z) true 5)).
  assert (Hn : ¬ baseline_blocks 100 None (Some 90%float)).
  { intros [(b & Hb & _) | (m & Hm & Hle)]; [done|].
    injection Hm as <-. vm_compute in Hle. discriminate Hle. }
  assert (Hf : fires_at rnd self 31 1).
  { exists 30%Z, 31%Z. split_and!; [reflexivity | reflexivity | lia |].
    cbn. lia. }
  assert (Hfirst : ∀ j, j < 1 → ¬ fires_at rnd self 31 j).
  { intros j Hj (bt & thr & _ & _ & _ & Hc).
    assert (j = 0) as -> by lia. cbn in Hc. lia. }
  split; [|split].
  - split; [exact Hn|]. split; [exact Hf|]. split; [exact Hfirst|].
    exact (H1 rnd self 31%Z 100%float None (Some 90%float) 1 Hn Hf Hfirst).
  - apply (H2 rnd self 31%Z 100%float None (Some 90%float) _
              [(INFO, MsgScheduled 31)]).
    vm_compute. reflexivity.
  - apply (H3 ((λ s, ShouldBid rnd s 100 None (Some 90%float))
               <$> [120; 60; 40; 30; 15; 10; 5; 3; 1]%Z)
              (TimedStrategy.init (Some [60; 30; 10; 3]%Z) false 5)).
Defined.

(* ------------------------------------------------------------------ *)
(** ** The timed scenario through the manager *)

(** C2 (as the code has it): for the auction registered with
    [TimedStrategy(bid_times=[60, 30, 10, 3])], no jitter, floor 90.0,
    and a constant price of 100.0, the [process_bid] calls with
    [seconds_remaining] = 120, 60, 40, 30, 15, 10, 5, 3, 1 accept
    exactly one bid: 99.99, at the call with 60 seconds, which fires
    threshold index 0.  Every later call returns "no bid", because the
    auction's [last_bid] 99.99 is [<=] the price 100.0; index 0 fires
    once and no other index fires. *)
Theorem timed_scenario_accepts_one_bid rnd now :
  let '(rs, st') :=
    process_all (timed_scenario_calls rnd now) (timed_scenario None) in
  rs = [Ok None; Ok (Some 99.99%float); Ok None; Ok None; Ok None;
        Ok None; Ok None; Ok None; Ok None] ∧
  length (List.filter accepted rs) = 1 ∧
  (99.99 <=? 100)%float = true ∧
  active_auctions st' !! "A"
  = Some (record_bid now 100 99.99
            (fresh_auction 0 0 (Some 90%float) None None)) ∧
  heap st'
  = [Timed (TimedStrategy.set_last_bid_time_index 0
              (TimedStrategy.init (Some [60; 30; 10; 3]%Z) false 5))].
Proof. vm_compute. split_and!; reflexivity. Qed.

(** C2, counterexample: in that scenario the calls with 30, 10 and 3
    seconds return "no bid", and one bid is accepted, not four. *)
Lemma timed_scenario_not_four_bids :
  let rs := fst (process_all (timed_scenario_calls (λ _, 0%Z) 0)
                   (timed_scenario None)) in
  rs !! 3 = Some (Ok None) ∧
  rs !! 5 = Some (Ok None) ∧
  rs !! 7 = Some (Ok None) ∧
  length (List.filter accepted rs) ≠ 4.
Proof. vm_compute. split_and!; (reflexivity || discriminate). Qed.


(* ================================================================== *)
(** * Further properties of the engine *)

(* ------------------------------------------------------------------ *)
(** ** Registration, removal and status *)

Lemma get_auction_status_lookup id st :
  fst (get_auction_status id st) = active_auctions st !! id ∧
  active_auctions (snd (get_auction_status id st)) = active_auctions st ∧
  heap (snd (get_auction_status id st)) = heap st.
Proof.
  unfold get_auction_status. by destruct (active_auctions st !! id).
Qed.

(** X1: registering an id that is not in the registry and removing it
    again gives back the registry as it was; the removal reports
    success and the strategy objects are untouched. *)
Theorem register_then_remove_restores now id ref min_price max_bids descr st :
  active_auctions st !! id = None →
  let st1 := snd (register_auction now id ref min_price max_bids descr st) in
  let '(removed, st2) := remove_auction id st1 in
  removed = true ∧
  active_auctions st2 = active_auctions st ∧
  heap st2 = heap st ∧
  log st2 = log st ++ [(INFO, MsgRegistered id descr); (INFO, MsgRemoved id)].
Proof.
  intros Hid. cbn. unfold remove_auction. cbn.
  rewrite lookup_insert_eq. cbn. split_and!; try done.
  - rewrite delete_insert_eq. by apply delete_id.
  - by rewrite <- app_assoc.
Qed.

Lemma register_then_remove_restores_witness :
  let st := minimal_scenario 0.01 None None in
  active_auctions st !! "B" = None ∧
  let st1 := snd (register_auction 3 "B" 0 (Some 50%float) (Some 2%Z) None st) in
  let '(removed, st2) := remove_auction "B" st1 in
  removed = true ∧
  active_auctions st2 = active_auctions st ∧
  heap st2 = heap st ∧
  log st2 = log st ++ [(INFO, MsgRegistered "B" None); (INFO, MsgRemoved "B")].
Proof.
  cbv zeta.
  assert (H : active_auctions (minimal_scenario 0.01 None None) !! "B" = None)
    by (vm_compute; reflexivity).
  split; [exact H|].
  exact (register_then_remove_restores 3 "B" 0 (Some 50%float) (Some 2%Z) None
           _ H).
Defined.

(** X2: whatever the state, after [remove_auction(id)] the registry is
    the old one without [id] and the answer tells whether [id] was
    there; from then on [process_bid] on [id] returns "no bid" with the
    warning of an unknown auction, the status of [id] is empty, and a
    second removal answers false and changes no record. *)
Theorem remove_auction_forgets id st :
  let '(removed, st1) := remove_auction id st in
  removed = bool_decide (is_Some (active_auctions st !! id)) ∧
  active_auctions st1 = delete id (active_auctions st) ∧
  heap st1 = heap st ∧
  (∀ rnd now price secs kw,
     process_bid rnd now id price secs kw st1
     = (Ok None, emit [(WARNING, MsgProcessUnknown id)] st1)) ∧
  fst (get_auction_status id st1) = None ∧
  fst (remove_auction id st1) = false ∧
  active_auctions (snd (remove_auction id st1)) = active_auctions st1.
Proof.
  unfold remove_auction at 1.
  destruct (active_auctions st !! id) as [a|] eqn:Ha; cbn.
  - assert (Hgone : delete id (active_auctions st) !! id = None)
      by apply lookup_delete_eq.
    split_and!; try done.
    + intros. by apply process_bid_unknown.
    + unfold get_auction_status. cbn. by rewrite Hgone.
    + unfold remove_auction. cbn. by rewrite Hgone.
    + unfold remove_auction. cbn. by rewrite Hgone.
  - split_and!; try done.
    + by rewrite delete_id.
    + intros. by apply process_bid_unknown.
    + unfold get_auction_status. cbn. by rewrite Ha.
    + unfold remove_auction. cbn. by rewrite Ha.
    + unfold remove_auction. cbn. by rewrite Ha.
Qed.

(** X3: [get_auction_status] shows what the last operation left: right
    after a registration, the fresh record; right after a [process_bid]
    that returned a bid, the old record with that bid as [last_bid],
    one more in [bids_count] and one more history entry; after a
    [process_bid] that returned no bid or raised, the same as before
    the call. *)
Theorem status_follows_operations :
  (∀ now id ref min_price max_bids descr st,
     fst (get_auction_status id
            (snd (register_auction now id ref min_price max_bids descr st)))
     = Some (fresh_auction now ref min_price max_bids descr)) ∧
  (∀ rnd now id price secs kw st,
     let '(r, st') := process_bid rnd now id price secs kw st in
     match r with
     | Ok (Some v) =>
         ∃ a, fst (get_auction_status id st) = Some a ∧
              fst (get_auction_status id st')
              = Some (record_bid now price v a)
     | _ => fst (get_auction_status id st') = fst (get_auction_status id st)
     end).
Proof.
  split.
  - intros. unfold get_auction_status. cbn. by rewrite lookup_insert_eq.
  - intros rnd now id price secs kw st.
    pose proof (process_bid_cases rnd now id price secs kw st) as H.
    destruct (process_bid _ _ _ _ _ _ _) as [r st'].
    destruct (get_auction_status_lookup id st) as [-> _].
    destruct (get_auction_status_lookup id st') as [-> _].
    destruct H as [(Hno & -> & _)
                  | (a & v & ? & ? & Ha & _ & _ & _ & -> & ->)].
    + destruct r as [[v|]|e]; [by destruct (Hno v)|done|done].
    + exists a. split; [done|]. apply lookup_insert_eq.
Qed.

(* ------------------------------------------------------------------ *)
(** ** What sequences of [process_bid] calls keep *)

Lemma process_keeps_ids c st :
  dom (active_auctions (snd (process c st))) = dom (active_auctions st).
Proof.
  unfold process.
  pose proof (process_bid_cases (Call.rnd c) (Call.now c) (Call.auction_id c)
                (Call.current_price c) (Call.seconds_remaining c)
                (Call.kwargs c) st) as H.
  destruct (process_bid _ _ _ _ _ _ _) as [r st']. cbn.
  destruct H as [(_ & -> & _) | (a & v & ? & ? & Ha & _ & _ & _ & _ & ->)];
    [done|].
  by apply dom_insert_lookup_L.
Qed.

(** X4: [process_bid] never adds an id to the registry and never removes
    one: after any sequence of calls, with any arguments, the registry
    holds exactly the ids it held before. *)
Theorem process_all_keeps_ids calls st :
  dom (active_auctions (snd (process_all calls st)))
  = dom (active_auctions st).
Proof.
  revert st. induction calls as [|c calls IH]; intros st; cbn; [done|].
  pose proof (process_keeps_ids c st) as Hc.
  destruct (process c st) as [r st1]. cbn in Hc.
  specialize (IH st1). destruct (process_all calls st1) as [rs st2].
  cbn in *. congruence.
Qed.

Lemma not_accepted r : (∀ v : float, r ≠ Ok (Some v)) → accepted r = false.
Proof. intros H. destruct r as [[v|]|e]; [by destruct (H v)|done|done]. Qed.

Lemma same_binding_refl a : same_binding a a.
Proof. by repeat split. Qed.

Lemma same_binding_trans a b c :
  same_binding a b → same_binding b c → same_binding a c.
Proof.
  intros (?&?&?&?&?) (?&?&?&?&?). repeat split; congruence.
Qed.

(** One call, seen from the record of [id]. *)
Lemma process_extends_record c st id a :
  active_auctions st !! id = Some a →
  ∃ a' k,
    active_auctions (snd (process c st)) !! id = Some a' ∧
    same_binding a a' ∧
    Auction.bid_history a' = Auction.bid_history a ++ k ∧
    Auction.bids_count a' = (Auction.bids_count a + Z.of_nat (length k))%Z ∧
    length k
    = (if bool_decide (Call.auction_id c = id) && accepted (fst (process c st))
       then 1 else 0).
Proof.
  intros Ha. unfold process.
  pose proof (process_bid_cases (Call.rnd c) (Call.now c) (Call.auction_id c)
                (Call.current_price c) (Call.seconds_remaining c)
                (Call.kwargs c) st) as H.
  destruct (process_bid _ _ _ _ _ _ _) as [r st']. cbn.
  destruct H as [(Hno & -> & _)
                | (a0 & v & ? & ? & Ha0 & _ & _ & _ & -> & ->)].
  - exists a, []. rewrite (not_accepted _ Hno), andb_false_r, app_nil_r.
    split_and!; first [done | apply same_binding_refl | (cbn; lia)].
  - destruct (decide (Call.auction_id c = id)) as [Heq|Hne].
    + subst id. rewrite Ha in Ha0. simplify_eq.
      eexists _, [_]. rewrite lookup_insert_eq, bool_decide_eq_true_2 by done.
      split_and!; first [done | apply same_binding_refl].
    + exists a, []. rewrite lookup_insert_ne, bool_decide_eq_false_2 by done.
      rewrite app_nil_r.
      split_and!; first [done | apply same_binding_refl | (cbn; lia)].
Qed.

(** X5: over any sequence of [process_bid] calls an auction stays
    registered with the strategy, floor, cap, description and start
    time it was registered with; its [bid_history] is only appended to,
    by exactly one entry per call on it that returned a bid, and
    [bids_count] grows by the same number. *)
Theorem process_all_appends_history calls : ∀ st id a,
  active_auctions st !! id = Some a →
  let '(rs, st') := process_all calls st in
  ∃ a' k,
    active_auctions st' !! id = Some a' ∧
    same_binding a a' ∧
    Auction.bid_history a' = Auction.bid_history a ++ k ∧
    Auction.bids_count a' = (Auction.bids_count a + Z.of_nat (length k))%Z ∧
    length k = accepted_on id calls rs.
Proof.
  induction calls as [|c calls IH]; intros st id a Ha; cbn.
  - exists a, []. rewrite app_nil_r.
    split_and!; first [done | apply same_binding_refl | (cbn; lia)].
  - destruct (process_extends_record c st id a Ha)
      as (a1 & k1 & Ha1 & Hb1 & Hh1 & Hc1 & Hk1).
    destruct (process c st) as [r st1]. cbn in Ha1, Hk1.
    specialize (IH st1 id a1 Ha1).
    destruct (process_all calls st1) as [rs st2].
    destruct IH as (a2 & k2 & Ha2 & Hb2 & Hh2 & Hc2 & Hk2).
    exists a2, (k1 ++ k2). split_and!; try done.
    + by eapply same_binding_trans.
    + by rewrite Hh2, Hh1, app_assoc.
    + rewrite Hc2, Hc1, length_app. lia.
    + rewrite length_app, Hk1, Hk2. unfold accepted_on. cbn.
      by destruct (bool_decide (Call.auction_id c = id) && accepted r).
Qed.

Lemma process_all_appends_history_witness :
  let st := minimal_scenario 0.01 (Some 90%float) None in
  let a := fresh_auction 0 0 (Some 90%float) None None in
  let calls := [call_on_A 100 None; call_on_A 100 None; call_on_A 95 None;
                call_on_A 80 None] in
  active_auctions st !! "A" = Some a ∧
  let '(rs, st') := process_all calls st in
  ∃ a' k,
    active_auctions st' !! "A" = Some a' ∧
    same_binding a a' ∧
    Auction.bid_history a' = Auction.bid_history a ++ k ∧
    Auction.bids_count a' = (Auction.bids_count a + Z.of_nat (length k))%Z ∧
    length k = accepted_on "A" calls rs.
Proof.
  cbv zeta.
  assert (H : active_auctions (minimal_scenario 0.01 (Some 90%float) None)
                !! "A"
              = Some (fresh_auction 0 0 (Some 90%float) None None))
    by (vm_compute; reflexivity).
  split; [exact H|].
  exact (process_all_appends_history
           [call_on_A 100 None; call_on_A 100 None; call_on_A 95 None;
            call_on_A 80 None] _ "A" _ H).
Defined.

(* ------------------------------------------------------------------ *)
(** ** The strategy objects *)

Lemma strategy_evolves_refl s : strategy_evolves s s.
Proof. destruct s; cbn; [done|]. split_and!; try done. Qed.

Lemma strategy_evolves_trans s1 s2 s3 :
  strategy_evolves s1 s2 → strategy_evolves s2 s3 → strategy_evolves s1 s3.
Proof.
  destruct s1, s2, s3; cbn; try done; [congruence|].
  intros (?&?&?&?) (?&?&?&?). split_and!; try congruence. lia.
Qed.

Lemma timed_should_bid_evolves rnd s secs price last floor b s' evs :
  TimedStrategy.should_bid rnd s secs price last floor = Ok (b, s', evs) →
  strategy_evolves (Timed s) (Timed s').
Proof.
  intros H. destruct b.
  - destruct (should_bid_fired _ _ _ _ _ _ _ _ H)
      as (i & (bt & thr & _ & _ & _ & Hc) & _ & ->).
    cbn. split_and!; try done. lia.
  - apply should_bid_not_fired in H as ->. apply strategy_evolves_refl.
Qed.

Lemma call_should_bid_evolves rnd h ref p b h' evs r s :
  call_should_bid rnd h ref p = Ok (b, h', evs) →
  h !! r = Some s →
  ∃ s', h' !! r = Some s' ∧ strategy_evolves s s'.
Proof.
  unfold call_should_bid. intros H Hr.
  destruct (h !! ref) as [[m|t]|] eqn:Href; [| |done].
  - destruct (MinimalDecreaseStrategy.should_bid _ _ _ _). simplify_eq.
    exists s. split; [done|apply strategy_evolves_refl].
  - destruct (Params.seconds_remaining p) as [secs|]; [|done].
    destruct (TimedStrategy.should_bid _ _ _ _ _ _) as [[[b' t'] evs']|]
      eqn:Hs; [|done].
    simplify_eq. destruct (decide (ref = r)) as [->|Hne].
    + rewrite Hr in Href. simplify_eq. exists (Timed t'). split.
      * apply list_lookup_insert_eq. by eapply lookup_lt_Some.
      * by eapply timed_should_bid_evolves.
    + exists s. rewrite list_lookup_insert_ne by done.
      split; [done|apply strategy_evolves_refl].
Qed.

Lemma step_heap_evolves o st r s :
  heap st !! r = Some s →
  ∃ s', heap (step o st) !! r = Some s' ∧ strategy_evolves s s'.
Proof.
  intros Hr.
  assert (Hsame : ∃ s', heap st !! r = Some s' ∧ strategy_evolves s s')
    by (exists s; split; [done|apply strategy_evolves_refl]).
  destruct o as [s0|now id ref mp mb descr|c|id|id]; cbn.
  - exists s. split; [|apply strategy_evolves_refl].
    by apply lookup_app_l_Some.
  - done.
  - unfold process.
    pose proof (process_bid_cases (Call.rnd c) (Call.now c)
                  (Call.auction_id c) (Call.current_price c)
                  (Call.seconds_remaining c) (Call.kwargs c) st) as H.
    destruct (process_bid _ _ _ _ _ _ _) as [res st']. cbn.
    destruct H as [(_ & _ & ->) | (a & v & ? & ? & _ & _ & Hs & _)];
      [done|].
    by eapply call_should_bid_evolves.
  - by destruct (get_auction_status_lookup id st) as (_ & _ & ->).
  - unfold remove_auction. by destruct (active_auctions st !! id).
Qed.

(** X7: over any sequence of operations a strategy object keeps its
    place in the heap; a [MinimalDecreaseStrategy] is never modified,
    and a [TimedStrategy] keeps its schedule and jitter settings while
    its [last_bid_time_index] never decreases, whichever auctions it
    is bound to. *)
Theorem strategy_objects_evolve ops : ∀ st r s,
  heap st !! r = Some s →
  ∃ s', heap (run ops st) !! r = Some s' ∧ strategy_evolves s s'.
Proof.
  induction ops as [|o ops IH]; intros st r s Hr; cbn.
  - exists s. split; [done|apply strategy_evolves_refl].
  - destruct (step_heap_evolves o st r s Hr) as (s1 & Hr1 & He1).
    destruct (IH _ _ _ Hr1) as (s2 & Hr2 & He2).
    exists s2. split; [done|]. by eapply strategy_evolves_trans.
Qed.

Lemma strategy_objects_evolve_witness :
  let st := timed_scenario None in
  let s := Timed (TimedStrategy.init (Some [60; 30; 10; 3]%Z) false 5) in
  let ops := [OpRegister 1 "B" 0 None None None;
              OpProcess (call_on_A 100 (Some 60%Z));
              OpProcess {| Call.rnd := λ _, 0%Z; Call.now := 2;
                           Call.auction_id := "B";
                           Call.current_price := 100;
                           Call.seconds_remaining := Some 60%Z;
                           Call.kwargs := Kwargs.empty |};
              OpRemove "A"] in
  heap st !! 0 = Some s ∧
  ∃ s', heap (run ops st) !! 0 = Some s' ∧ strategy_evolves s s'.
Proof.
  cbv zeta. split; [vm_compute; reflexivity|].
  apply strategy_objects_evolve. vm_compute. reflexivity.
Defined.

(* ------------------------------------------------------------------ *)
(** ** The life of a timed strategy *)

Lemma timed_step_bounds c self :
  let '(fired, self') := timed_step c self in
  TimedStrategy.bid_times self' = TimedStrategy.bid_times self ∧
  TimedStrategy.random_delay self' = TimedStrategy.random_delay self ∧
  TimedStrategy.max_random_delay self' = TimedStrategy.max_random_delay self ∧
  match fired with
  | Some i =>
      (TimedStrategy.last_bid_time_index self < i)%Z ∧
      TimedStrategy.last_bid_time_index self' = i ∧
      (0 ≤ i < Z.of_nat (length (TimedStrategy.bid_times self)))%Z
  | None => self' = self
  end.
Proof.
  destruct c as [rnd secs price last floor|]; cbn; [|done].
  destruct (TimedStrategy.should_bid rnd self secs price last floor)
    as [[[[] self'] evs]|] eqn:H; [| |done].
  - destruct (should_bid_fired _ _ _ _ _ _ _ _ H)
      as (i & (bt & thr & Hl & _ & _ & Hc) & _ & ->).
    apply lookup_lt_Some in Hl. cbn. split_and!; try done; lia.
  - by apply should_bid_not_fired in H as ->.
Qed.

Lemma timed_run_bounds calls : ∀ self,
  let '(fired, self') := timed_run calls self in
  TimedStrategy.bid_times self' = TimedStrategy.bid_times self ∧
  TimedStrategy.random_delay self' = TimedStrategy.random_delay self ∧
  TimedStrategy.max_random_delay self' = TimedStrategy.max_random_delay self ∧
  Forall (λ i, 0 ≤ i < Z.of_nat (length (TimedStrategy.bid_times self)))%Z
    fired ∧
  (TimedStrategy.last_bid_time_index self'
   = TimedStrategy.last_bid_time_index self ∨
   0 ≤ TimedStrategy.last_bid_time_index self'
     < Z.of_nat (length (TimedStrategy.bid_times self)))%Z.
Proof.
  induction calls as [|c calls IH]; intros self; cbn.
  - split_and!; try done. by left.
  - pose proof (timed_step_bounds c self) as Hstep.
    destruct (timed_step c self) as [fired self1].
    specialize (IH self1).
    destruct (timed_run calls self1) as [rest self2].
    destruct Hstep as (Hb1 & Hr1 & Hm1 & Hf1).
    destruct IH as (Hb2 & Hr2 & Hm2 & Hall & Hc2).
    rewrite Hb1 in Hall, Hc2.
    split_and!; try congruence.
    + destruct fired as [i|]; cbn; [|done].
      constructor; [|done]. by destruct Hf1 as (_ & _ & ?).
    + destruct fired as [i|]; [|by subst self1].
      destruct Hf1 as (_ & Hi & ?). destruct Hc2 as [->|?]; [|by right].
      right. by rewrite Hi.
Qed.

(** Strictly increasing integers of an interval are no more than the
    interval holds. *)
Lemma increasing_length_bound (l : list Z) : ∀ lo hi : Z,
  StronglySorted Z.lt l →
  Forall (λ i, lo < i ≤ hi)%Z l →
  (Z.of_nat (length l) ≤ Z.max 0 (hi - lo))%Z.
Proof.
  induction l as [|x l IH]; intros lo hi Hs Hall; cbn [length]; [lia|].
  apply StronglySorted_inv in Hs as [Hs Hx].
  apply Forall_cons in Hall as [Hx0 Hall].
  assert (Hall' : Forall (λ i, x < i ≤ hi)%Z l).
  { rewrite Forall_forall in *. intros i Hi.
    specialize (Hx i Hi). specialize (Hall i Hi). lia. }
  specialize (IH x hi Hs Hall'). lia.
Qed.

(** X8: over any sequence of calls on one [TimedStrategy] object, its
    schedule and jitter settings never change, every index it fires is
    a position of the schedule, the cursor stays where it was or on
    such a position, and [should_bid] answers true at most as many
    times as there are thresholds after the cursor: at most
    [len(bid_times)] times in its whole life, and never again once the
    last position has fired. *)
Theorem timed_answers_true_at_most_once_per_threshold calls self :
  let '(fired, self') := timed_run calls self in
  let len := Z.of_nat (length (TimedStrategy.bid_times self)) in
  TimedStrategy.bid_times self' = TimedStrategy.bid_times self ∧
  TimedStrategy.random_delay self' = TimedStrategy.random_delay self ∧
  TimedStrategy.max_random_delay self' = TimedStrategy.max_random_delay self ∧
  Forall (λ i, 0 ≤ i < len)%Z fired ∧
  (TimedStrategy.last_bid_time_index self'
   = TimedStrategy.last_bid_time_index self ∨
   0 ≤ TimedStrategy.last_bid_time_index self' < len)%Z ∧
  (Z.of_nat (length fired)
   ≤ Z.max 0 (len - 1
              - Z.max (TimedStrategy.last_bid_time_index self) (-1)))%Z ∧
  (Z.of_nat (length fired) ≤ len)%Z.
Proof.
  pose proof (timed_run_bounds calls self) as Hb.
  pose proof (timed_run_cursor calls self) as Hc.
  destruct (timed_run calls self) as [fired self']. cbv zeta.
  destruct Hb as (? & ? & ? & Hpos & ?). destruct Hc as (_ & Hs & Hrange).
  assert (Hlen : (Z.of_nat (length fired)
                  ≤ Z.max 0 (Z.of_nat (length (TimedStrategy.bid_times self))
                             - 1
                             - Z.max (TimedStrategy.last_bid_time_index self)
                                 (-1)))%Z).
  { apply increasing_length_bound; [done|].
    rewrite Forall_forall in *. intros i Hi.
    specialize (Hpos i Hi). specialize (Hrange i Hi). lia. }
  split_and!; try done. lia.
Qed.

Lemma descending_lookup (l : list Z) : ∀ i j x y,
  descending l → i < j → l !! i = Some x → l !! j = Some y → (y ≤ x)%Z.
Proof.
  unfold descending.
  induction l as [|a l IH]; intros i j x y Hs Hij Hi Hj; [done|].
  apply StronglySorted_inv in Hs as [Hs Ha].
  destruct j as [|j]; [lia|]. cbn in Hj. destruct i as [|i]; cbn in Hi.
  - simplify_eq. rewrite Forall_forall in Ha. apply Ha.
    by eapply list_elem_of_lookup_2.
  - apply (IH i j x y); [done | lia | done | done].
Qed.

(** X9: with a schedule given from the largest threshold down and no
    jitter, a call that answers true fires exactly the next position,
    [last_bid_time_index + 1], however late the call comes: a
    threshold is never skipped, so each threshold missed by the poller
    costs one later call. *)
Theorem descending_schedule_fires_next
    rnd self secs price last floor self' evs :
  descending (TimedStrategy.bid_times self) →
  TimedStrategy.random_delay self = false →
  (-1 ≤ TimedStrategy.last_bid_time_index self)%Z →
  TimedStrategy.should_bid rnd self secs price last floor
  = Ok (true, self', evs) →
  TimedStrategy.last_bid_time_index self'
  = (TimedStrategy.last_bid_time_index self + 1)%Z.
Proof.
  intros Hdesc Hrd Hc H.
  destruct (should_bid_fired _ _ _ _ _ _ _ _ H)
    as (i & (bt & thr & Hl & Ha & Hs & Hci) & Hfirst & ->).
  cbn. unfold TimedStrategy.adjusted_bid_time in Ha. rewrite Hrd in Ha.
  simplify_eq.
  set (j := Z.to_nat (TimedStrategy.last_bid_time_index self + 1)).
  destruct (decide (j = i)) as [Heq|Hne]; [lia|].
  assert (Hji : j < i) by lia.
  destruct (lookup_lt_is_Some_2 (TimedStrategy.bid_times self) j)
    as [btj Hlj]; [apply lookup_lt_Some in Hl; lia|].
  pose proof (descending_lookup _ _ _ _ _ Hdesc Hji Hlj Hl) as Hle.
  destruct (Hfirst j Hji). exists btj, btj. split_and!; try done.
  - unfold TimedStrategy.adjusted_bid_time. by rewrite Hrd.
  - lia.
  - lia.
Qed.

Lemma descending_schedule_fires_next_witness :
  let self := TimedStrategy.init None false 5 in
  descending (TimedStrategy.bid_times self) ∧
  TimedStrategy.random_delay self = false ∧
  (-1 ≤ TimedStrategy.last_bid_time_index self)%Z ∧
  TimedStrategy.should_bid (λ _, 0%Z) self 2 100 None None
  = Ok (true, TimedStrategy.set_last_bid_time_index 0 self,
        [(INFO, MsgScheduled 2)]) ∧
  TimedStrategy.last_bid_time_index
    (TimedStrategy.set_last_bid_time_index 0 self)
  = (TimedStrategy.last_bid_time_index self + 1)%Z.
Proof.
  cbv zeta.
  assert (Hd : descending
                 (TimedStrategy.bid_times (TimedStrategy.init None false 5))).
  { unfold descending. cbn. repeat constructor; lia. }
  assert (Hs : TimedStrategy.should_bid (λ _, 0%Z)
                 (TimedStrategy.init None false 5) 2 100 None None
               = Ok (true,
                     TimedStrategy.set_last_bid_time_index 0
                       (TimedStrategy.init None false 5),
                     [(INFO, MsgScheduled 2)]))
    by (vm_compute; reflexivity).
  split; [exact Hd|]. split; [reflexivity|]. split; [cbn; lia|].
  split; [exact Hs|].
  exact (descending_schedule_fires_next _ _ _ _ _ _ _ _ Hd eq_refl
           ltac:(cbn; lia) Hs).
Defined.

(* ------------------------------------------------------------------ *)
(** ** Eligibility and acceptance through the manager *)

Lemma minimal_should_bid_passes self price last floor :
  ¬ baseline_blocks price last floor →
  MinimalDecreaseStrategy.should_bid self price last floor = (true, []).
Proof.
  intros Hn. apply not_baseline_blocks in Hn as [Hl Hf].
  unfold MinimalDecreaseStrategy.should_bid.
  destruct last as [b|]; [rewrite (Hl b eq_refl)|];
    (destruct floor as [m|]; [by rewrite (Hf m eq_refl)|done]).
Qed.

(** X10: [MinimalDecreaseStrategy.should_bid] answers true exactly when
    neither baseline rule blocks (no last bid at or below the price, no
    floor at or above the price); it logs nothing when it answers true
    and one event when it answers false, and its answer does not depend
    on the configured decrements. *)
Theorem minimal_should_bid_exact self self' price last floor :
  (fst (MinimalDecreaseStrategy.should_bid self price last floor) = true
   ↔ ¬ baseline_blocks price last floor) ∧
  length (snd (MinimalDecreaseStrategy.should_bid self price last floor))
  = (if fst (MinimalDecreaseStrategy.should_bid self price last floor)
     then 0 else 1) ∧
  MinimalDecreaseStrategy.should_bid self price last floor
  = MinimalDecreaseStrategy.should_bid self' price last floor.
Proof.
  split_and!.
  - split.
    + intros Ht Hb. apply (minimal_should_bid_blocked self) in Hb.
      congruence.
    + intros Hn. by rewrite minimal_should_bid_passes.
  - unfold MinimalDecreaseStrategy.should_bid.
    destruct last as [b|]; [destruct (b <=? price)%float; [done|]|];
      (destruct floor as [m|]; [by destruct (price <=? m)%float|done]).
  - done.
Qed.

Lemma process_bid_minimal_passes rnd now id price secs kw st a s :
  active_auctions st !! id = Some a →
  heap st !! Auction.strategy a = Some (Minimal s) →
  max_bids_reached a = false →
  ¬ baseline_blocks price
      (Params.my_last_bid (strategy_params a price secs kw))
      (Params.min_price (strategy_params a price secs kw)) →
  process_bid rnd now id price secs kw st
  = (Ok (Some (fst (MinimalDecreaseStrategy.calculate_bid s price))),
     {| heap := heap st;
        active_auctions :=
          <[id := record_bid now price
                    (fst (MinimalDecreaseStrategy.calculate_bid s price)) a]>
            (active_auctions st);
        log := log st ++
                 [(INFO, MsgCalculated
                           (fst (MinimalDecreaseStrategy.calculate_bid s price))
                           price);
                  (INFO, MsgProcessed id
                           (fst (MinimalDecreaseStrategy.calculate_bid s price)))]
     |}).
Proof.
  intros Ha Hh Hcap Hn.
  unfold process_bid, call_should_bid. rewrite Ha, Hcap, Hh.
  cbn [Params.current_price strategy_params].
  rewrite (minimal_should_bid_passes s _ _ _ Hn). cbn.
  unfold call_calculate_bid. by rewrite Hh.
Qed.

(** X11: for a registered auction bound to a [MinimalDecreaseStrategy]
    whose cap is not reached, when neither baseline rule blocks on the
    parameters forwarded, [process_bid] returns the bid the strategy
    computes for the price, stores the updated record under the id,
    touches no strategy object and logs the computation and the
    processing, in that order. *)
Theorem minimal_process_bid_accepts rnd now id price secs kw st a s :
  active_auctions st !! id = Some a →
  heap st !! Auction.strategy a = Some (Minimal s) →
  max_bids_reached a = false →
  ¬ baseline_blocks price
      (Params.my_last_bid (strategy_params a price secs kw))
      (Params.min_price (strategy_params a price secs kw)) →
  let v := fst (MinimalDecreaseStrategy.calculate_bid s price) in
  process_bid rnd now id price secs kw st
  = (Ok (Some v),
     {| heap := heap st;
        active_auctions :=
          <[id := record_bid now price v a]> (active_auctions st);
        log := log st ++ [(INFO, MsgCalculated v price);
                          (INFO, MsgProcessed id v)] |}).
Proof.
  intros Ha Hh Hcap Hn. cbv zeta. by apply process_bid_minimal_passes.
Qed.

Lemma minimal_process_bid_accepts_witness :
  let st := minimal_scenario 0.01 (Some 90%float) (Some 3%Z) in
  let a := fresh_auction 0 0 (Some 90%float) (Some 3%Z) None in
  let s := MinimalDecreaseStrategy.init (Some 0.01%float) None in
  active_auctions st !! "A" = Some a ∧
  heap st !! Auction.strategy a = Some (Minimal s) ∧
  max_bids_reached a = false ∧
  ¬ baseline_blocks 100
      (Params.my_last_bid (strategy_params a 100 (Some 7%Z) Kwargs.empty))
      (Params.min_price (strategy_params a 100 (Some 7%Z) Kwargs.empty)) ∧
  process_bid (λ _, 0%Z) 4 "A" 100 (Some 7%Z) Kwargs.empty st
  = (Ok (Some (fst (MinimalDecreaseStrategy.calculate_bid s 100))),
     {| heap := heap st;
        active_auctions :=
          <[ "A" := record_bid 4 100
                      (fst (MinimalDecreaseStrategy.calculate_bid s 100)) a]>
            (active_auctions st);
        log := log st ++
                 [(INFO, MsgCalculated
                           (fst (MinimalDecreaseStrategy.calculate_bid s 100))
                           100);
                  (INFO, MsgProcessed "A"
                           (fst (MinimalDecreaseStrategy.calculate_bid s 100)))]
     |}).
Proof.
  cbv zeta.
  assert (Hn : ¬ baseline_blocks 100
                 (Params.my_last_bid
                    (strategy_params
                       (fresh_auction 0 0 (Some 90%float) (Some 3%Z) None)
                       100 (Some 7%Z) Kwargs.empty))
                 (Params.min_price
                    (strategy_params
                       (fresh_auction 0 0 (Some 90%float) (Some 3%Z) None)
                       100 (Some 7%Z) Kwargs.empty))).
  { intros [(b & Hb & _) | (m & Hm & Hle)]; [done|].
    injection Hm as <-. vm_compute in Hle. discriminate Hle. }
  split; [vm_compute; reflexivity|].
  split; [vm_compute; reflexivity|]. split; [reflexivity|].
  split; [exact Hn|].
  apply minimal_process_bid_accepts;
    [vm_compute; reflexivity | vm_compute; reflexivity | reflexivity
    | exact Hn].
Defined.

(** X12: when [process_bid] returns a bid for an auction bound to a
    [TimedStrategy] and the caller passed neither a percentage nor an
    aggressive flag, the bid is [round(current_price - d, 2)] with [d]
    the [min_decrease_value] the caller passed, 0.01 when none: the
    manager itself never hands a decrement configuration to a timed
    strategy. *)
Theorem timed_process_bid_default_decrement
    rnd now id price secs kw st a s v st' :
  active_auctions st !! id = Some a →
  heap st !! Auction.strategy a = Some (Timed s) →
  Kwargs.min_decrease_percent kw = None →
  Kwargs.aggressive_final_bid kw ≠ Some true →
  process_bid rnd now id price secs kw st = (Ok (Some v), st') →
  v = round (price - default 0.01%float (Kwargs.min_decrease_value kw)) 2.
Proof.
  intros Ha Hh Hpct Hagg Hp.
  pose proof (process_bid_cases rnd now id price secs kw st) as H.
  rewrite Hp in H.
  destruct H as [(Hno & _) | (a' & v' & evs1 & evs2 & Ha' & _ & Hs & Hc & Hv & _)];
    [by destruct (Hno v)|].
  rewrite Ha in Ha'. simplify_eq.
  destruct (call_should_bid_evolves _ _ _ _ _ _ _ _ _ Hs Hh) as (s' & Hh' & He).
  destruct s' as [|t']; [done|].
  unfold call_calculate_bid in Hc. rewrite Hh' in Hc. cbn in Hc.
  rewrite Hpct in Hc. cbn in Hc.
  assert (Hf : default false (Kwargs.aggressive_final_bid kw) = false).
  { destruct (Kwargs.aggressive_final_bid kw) as [[]|]; [done|done|done]. }
  rewrite Hf in Hc. cbn in Hc.
  unfold MinimalDecreaseStrategy.calculate_bid in Hc. cbn in Hc.
  replace (gtb 0 0) with false in Hc by reflexivity.
  rewrite andb_false_r in Hc. by simplify_eq.
Qed.

Lemma timed_process_bid_default_decrement_witness :
  let st := timed_scenario None in
  let a := fresh_auction 0 0 (Some 90%float) None None in
  let s := TimedStrategy.init (Some [60; 30; 10; 3]%Z) false 5 in
  active_auctions st !! "A" = Some a ∧
  heap st !! Auction.strategy a = Some (Timed s) ∧
  process_bid (λ _, 0%Z) 1 "A" 100 (Some 60%Z) Kwargs.empty st
  = (Ok (Some 99.99%float), snd (process (call_on_A 100 (Some 60%Z)) st)) ∧
  99.99%float = round (100 - default 0.01%float None) 2.
Proof.
  cbv zeta.
  assert (Ha : active_auctions (timed_scenario None) !! "A"
               = Some (fresh_auction 0 0 (Some 90%float) None None))
    by (vm_compute; reflexivity).
  assert (Hh : heap (timed_scenario None)
                 !! Auction.strategy
                      (fresh_auction 0 0 (Some 90%float) None None)
               = Some (Timed (TimedStrategy.init (Some [60; 30; 10; 3]%Z)
                                false 5)))
    by (vm_compute; reflexivity).
  assert (Hp : process_bid (λ _, 0%Z) 1 "A" 100 (Some 60%Z) Kwargs.empty
                 (timed_scenario None)
               = (Ok (Some 99.99%float),
                  snd (process (call_on_A 100 (Some 60%Z))
                         (timed_scenario None))))
    by (vm_compute; reflexivity).
  split; [exact Ha|]. split; [exact Hh|]. split; [exact Hp|].
  exact (timed_process_bid_default_decrement _ _ _ _ _ Kwargs.empty _ _ _ _ _
           Ha Hh eq_refl ltac:(discriminate) Hp).
Defined.

(** X13: for a registered auction bound to a [TimedStrategy] with
    jitter enabled and a negative [max_random_delay], whose cap is not
    reached, a [process_bid] call that gives [seconds_remaining] and
    passes the baseline rules raises [ValueError] (the jitter range is
    empty) and changes nothing. *)
Theorem timed_process_bid_empty_jitter_range
    rnd now id price seconds kw st a s :
  active_auctions st !! id = Some a →
  heap st !! Auction.strategy a = Some (Timed s) →
  max_bids_reached a = false →
  TimedStrategy.random_delay s = true →
  (TimedStrategy.max_random_delay s < 0)%Z →
  TimedStrategy.bid_times s ≠ [] →
  ¬ baseline_blocks price
      (Params.my_last_bid (strategy_params a price (Some seconds) kw))
      (Params.min_price (strategy_params a price (Some seconds) kw)) →
  process_bid rnd now id price (Some seconds) kw st = (Raise ValueError, st).
Proof.
  intros Ha Hh Hcap Hrd Hneg Hne Hn.
  unfold process_bid, call_should_bid. rewrite Ha, Hcap, Hh.
  cbn [Params.seconds_remaining Params.current_price strategy_params].
  unfold TimedStrategy.should_bid. rewrite (baseline_passes _ _ _ Hn). cbn.
  destruct (TimedStrategy.bid_times s) as [|bt l]; [done|]. cbn.
  unfold TimedStrategy.adjusted_bid_time, TimedStrategy.randint.
  rewrite Hrd. apply Z.ltb_lt in Hneg. by rewrite Hneg.
Qed.

Lemma timed_process_bid_empty_jitter_range_witness :
  let s := TimedStrategy.init None true (-1) in
  let st := snd (register_auction 0 "A" 0 None None None
                   (BiddingManager.init [Timed s])) in
  let a := fresh_auction 0 0 None None None in
  active_auctions st !! "A" = Some a ∧
  heap st !! Auction.strategy a = Some (Timed s) ∧
  max_bids_reached a = false ∧
  TimedStrategy.random_delay s = true ∧
  (TimedStrategy.max_random_delay s < 0)%Z ∧
  TimedStrategy.bid_times s ≠ [] ∧
  ¬ baseline_blocks 100
      (Params.my_last_bid (strategy_params a 100 (Some 20%Z) Kwargs.empty))
      (Params.min_price (strategy_params a 100 (Some 20%Z) Kwargs.empty)) ∧
  process_bid (λ _, 3%Z) 1 "A" 100 (Some 20%Z) Kwargs.empty st
  = (Raise ValueError, st).
Proof.
  cbv zeta. split; [vm_compute; reflexivity|].
  split; [reflexivity|]. split; [reflexivity|]. split; [reflexivity|].
  split; [cbn; lia|]. split; [cbn; discriminate|].
  split; [intros [(b & Hb & _) | (m & Hm & _)]; [done|done]|].
  apply (timed_process_bid_empty_jitter_range _ _ _ _ _ _ _
           (fresh_auction 0 0 None None None)
           (TimedStrategy.init None true (-1))).
  - vm_compute. reflexivity.
  - reflexivity.
  - reflexivity.
  - reflexivity.
  - cbn. lia.
  - cbn. discriminate.
  - intros [(b & Hb & _) | (m & Hm & _)]; [done|done].
Defined.


(* ------------------------------------------------------------------ *)
(** ** A price that is not a number *)

Lemma nan_is_unordered (x : float) :
  (x <=? nan)%float = false ∧ (nan <=? x)%float = false ∧
  (x <? nan)%float = false ∧ (nan <? x)%float = false.
Proof.
  rewrite !leb_spec, !ltb_spec.
  replace (Prim2SF nan) with S754_nan by reflexivity.
  by destruct (Prim2SF x).
Qed.

Lemma nan_absorbs (x : float) :
  (nan * x)%float = nan ∧ (nan - x)%float = nan.
Proof.
  split.
  - rewrite <- (SF2Prim_Prim2SF (nan * x)), mul_spec.
    replace (Prim2SF nan) with S754_nan by reflexivity. done.
  - rewrite <- (SF2Prim_Prim2SF (nan - x)), sub_spec.
    replace (Prim2SF nan) with S754_nan by reflexivity. done.
Qed.

Lemma nan_never_blocked last floor : ¬ baseline_blocks nan last floor.
Proof.
  intros [(b & _ & Hb) | (m & _ & Hm)].
  - destruct (nan_is_unordered b) as (H & _). congruence.
  - destruct (nan_is_unordered m) as (_ & H & _). congruence.
Qed.

Lemma minimal_calculate_bid_nan self :
  fst (MinimalDecreaseStrategy.calculate_bid self nan) = nan.
Proof.
  unfold MinimalDecreaseStrategy.calculate_bid, gtb. cbv zeta. cbn [fst].
  destruct (nan_absorbs (MinimalDecreaseStrategy.min_decrease_percent self
                         / 100)) as [-> _].
  destruct (nan_is_unordered (MinimalDecreaseStrategy.min_decrease_value self))
    as (_ & _ & -> & _).
  cbn [andb].
  by destruct (nan_absorbs (MinimalDecreaseStrategy.min_decrease_value self))
    as [_ ->].
Qed.

(** X14: the engine does not reject a price that is not a number.  For
    a registered auction bound to a [MinimalDecreaseStrategy] whose cap
    is not reached, [process_bid] with [current_price = nan] passes both
    baseline rules, whatever the last bid and the floor, and returns
    the bid [nan], which becomes the [last_bid] of the record.  A
    [last_bid] that is [nan] never counts as leading: at any later
    price [should_bid] answers as if there were no last bid. *)
Theorem nan_price_is_bid_and_recorded :
  (∀ rnd now id secs kw st a s,
     active_auctions st !! id = Some a →
     heap st !! Auction.strategy a = Some (Minimal s) →
     max_bids_reached a = false →
     ∃ st',
       process_bid rnd now id nan secs kw st = (Ok (Some nan), st') ∧
       active_auctions st' !! id = Some (record_bid now nan nan a) ∧
       Auction.last_bid (record_bid now nan nan a) = Some nan) ∧
  (∀ self price floor,
     MinimalDecreaseStrategy.should_bid self price (Some nan) floor
     = MinimalDecreaseStrategy.should_bid self price None floor).
Proof.
  split.
  - intros rnd now id secs kw st a s Ha Hh Hcap. eexists. split.
    + rewrite (process_bid_minimal_passes rnd now id nan secs kw st a s
                 Ha Hh Hcap (nan_never_blocked _ _)).
      rewrite !minimal_calculate_bid_nan. reflexivity.
    + split; [apply lookup_insert_eq | reflexivity].
  - intros self price floor. unfold MinimalDecreaseStrategy.should_bid.
    by destruct (nan_is_unordered price) as (_ & -> & _).
Qed.

Lemma nan_price_is_bid_and_recorded_witness :
  let st := minimal_scenario 0.01 (Some 90%float) None in
  let a := fresh_auction 0 0 (Some 90%float) None None in
  active_auctions st !! "A" = Some a ∧
  heap st !! Auction.strategy a
  = Some (Minimal (MinimalDecreaseStrategy.init (Some 0.01%float) None)) ∧
  max_bids_reached a = false ∧
  ∃ st',
    process_bid (λ _, 0%Z) 1 "A" nan None Kwargs.empty st
    = (Ok (Some nan), st') ∧
    active_auctions st' !! "A" = Some (record_bid 1 nan nan a) ∧
    Auction.last_bid (record_bid 1 nan nan a) = Some nan.
Proof.
  cbv zeta. destruct nan_price_is_bid_and_recorded as [H _].
  split; [vm_compute; reflexivity|]. split; [vm_compute; reflexivity|].
  split; [reflexivity|].
  apply (H (λ _, 0%Z) 1%Z "A" None Kwargs.empty _
           (fresh_auction 0 0 (Some 90%float) None None)
           (MinimalDecreaseStrategy.init (Some 0.01%float) None));
    vm_compute; reflexivity.
Defined.


(* ================================================================== *)
(** * Properties of the second engine *)

(** In this section the names are those of [Core]: [process_bid],
    [Auction], [Call], [process_all] and so on are the second
    engine's. *)
Section CoreFacts.
Import Core Core.BiddingManager.

(** One call: either it returns no bid and leaves every record alone,
    or the auction is registered with a timed strategy, below its cap,
    the second is on the schedule, and the bid is recorded. *)
Lemma core_process_bid_cases id price secs st :
  let '(r, st') := process_bid id price secs st in
  ((∀ v, r ≠ Ok (Some v)) ∧ auctions st' = auctions st) ∨
  (∃ a s,
     auctions st !! id = Some a ∧
     Auction.strategy a = Timed s ∧
     (Auction.bids_count a < Auction.max_bids a)%Z ∧
     secs ∈ TimedStrategy.bid_times s ∧
     r = Ok (Some (TimedStrategy.calculate_bid s price 0.01 0.1
                     (secs <=? 5)%Z)) ∧
     st' = {| auctions :=
                <[id := record_bid
                          (TimedStrategy.calculate_bid s price 0.01 0.1
                             (secs <=? 5)%Z) a]> (auctions st);
              log := log st ++
                       [(INFO, MsgBid (TimedStrategy.calculate_bid s price
                                         0.01 0.1 (secs <=? 5)%Z))] |}).
Proof.
  unfold process_bid.
  destruct (auctions st !! id) as [a|] eqn:Ha; [|by left].
  destruct (Auction.max_bids a <=? Auction.bids_count a)%Z eqn:Hcap;
    [by left|].
  destruct (Auction.strategy a) as [m|s] eqn:Hs; [by left|].
  unfold TimedStrategy.should_bid. case_bool_decide as Hin; [|by left].
  right. exists a, s. apply Z.leb_gt in Hcap. by split_and!.
Qed.

Lemma core_process_lookup c st id a :
  auctions st !! id = Some a →
  ∃ a',
    auctions (snd (process c st)) !! id = Some a' ∧
    Auction.strategy a' = Auction.strategy a ∧
    Auction.max_bids a' = Auction.max_bids a ∧
    Auction.min_price a' = Auction.min_price a ∧
    Auction.item_description a' = Auction.item_description a ∧
    (a' = a ∨
     Call.auction_id c = id ∧
     (∃ v, fst (process c st) = Ok (Some v) ∧ a' = record_bid v a)).
Proof.
  intros Ha. unfold process.
  pose proof (core_process_bid_cases (Call.auction_id c)
                (Call.current_price c) (Call.seconds_remaining c) st) as H.
  destruct (process_bid _ _ _ _) as [r st']. cbn.
  destruct H as [(_ & ->) | (a0 & s & Ha0 & _ & _ & _ & -> & ->)].
  - exists a. split_and!; try done. by left.
  - cbn. destruct (decide (Call.auction_id c = id)) as [Heq|Hne].
    + subst id. rewrite Ha in Ha0. simplify_eq.
      eexists. rewrite lookup_insert_eq. split_and!; try done.
      right. split; [done|]. by eexists.
    + exists a. rewrite lookup_insert_ne by done.
      split_and!; try done. by left.
Qed.

(** X15: when the second engine's [process_bid] returns a bid, the
    auction is registered with a [TimedStrategy], its [bids_count] is
    below [max_bids] and [seconds_remaining] is one of the scheduled
    seconds; the bid is [current_price - 0.01 * 2] when
    [seconds_remaining <= 5] and [current_price - max(0.01,
    current_price * 0.1)] otherwise, whatever the floor and the last
    bid; the record gets the bid as [last_bid] and one more in
    [bids_count]. *)
Theorem core_accepted_bid_means id price secs st v st' :
  process_bid id price secs st = (Ok (Some v), st') →
  ∃ a s,
    auctions st !! id = Some a ∧
    Auction.strategy a = Timed s ∧
    (Auction.bids_count a < Auction.max_bids a)%Z ∧
    secs ∈ TimedStrategy.bid_times s ∧
    v = (if (secs <=? 5)%Z then (price - 0.01 * 2)%float
         else (price - max 0.01 (price * 0.1))%float) ∧
    auctions st' !! id = Some (record_bid v a) ∧
    Auction.last_bid (record_bid v a) = Some v ∧
    Auction.bids_count (record_bid v a) = (Auction.bids_count a + 1)%Z.
Proof.
  intros Hp. pose proof (core_process_bid_cases id price secs st) as H.
  rewrite Hp in H.
  destruct H as [(Hno & _) | (a & s & Ha & Hs & Hc & Hin & Hv & ->)];
    [by destruct (Hno v)|].
  simplify_eq. exists a, s.
  split_and!;
    first [ done
          | apply lookup_insert_eq
          | (unfold TimedStrategy.calculate_bid;
             by destruct (secs <=? 5)%Z) ].
Qed.

Lemma core_accepted_bid_means_witness :
  let s := {| TimedStrategy.bid_times := [60; 30; 10; 3]%Z;
              TimedStrategy.random_delay := false |} in
  let st := register_auction "A" (Timed s) 90 5 "item" init in
  process_bid "A" 100 3 st
  = (Ok (Some 99.98%float), snd (process_bid "A" 100 3 st)) ∧
  ∃ a s,
    auctions st !! "A" = Some a ∧
    Auction.strategy a = Timed s ∧
    (Auction.bids_count a < Auction.max_bids a)%Z ∧
    3%Z ∈ TimedStrategy.bid_times s ∧
    99.98%float = (if (3 <=? 5)%Z then (100 - 0.01 * 2)%float
                   else (100 - max 0.01 (100 * 0.1))%float) ∧
    auctions (snd (process_bid "A" 100 3 st)) !! "A"
    = Some (record_bid 99.98 a) ∧
    Auction.last_bid (record_bid 99.98 a) = Some 99.98%float ∧
    Auction.bids_count (record_bid 99.98 a) = (Auction.bids_count a + 1)%Z.
Proof.
  cbv zeta.
  assert (H : process_bid "A" 100 3
                (register_auction "A"
                   (Timed {| TimedStrategy.bid_times := [60; 30; 10; 3]%Z;
                             TimedStrategy.random_delay := false |})
                   90 5 "item" init)
              = (Ok (Some 99.98%float),
                 snd (process_bid "A" 100 3
                        (register_auction "A"
                           (Timed {| TimedStrategy.bid_times
                                       := [60; 30; 10; 3]%Z;
                                     TimedStrategy.random_delay := false |})
                           90 5 "item" init))))
    by (vm_compute; reflexivity).
  split; [exact H|]. exact (core_accepted_bid_means _ _ _ _ _ _ H).
Defined.

(** One call, seen from a record bound to a timed strategy. *)
Lemma core_process_timed_count c st id a s :
  auctions st !! id = Some a →
  Auction.strategy a = Timed s →
  ∃ a',
    auctions (snd (process c st)) !! id = Some a' ∧
    Auction.strategy a' = Timed s ∧
    Auction.max_bids a' = Auction.max_bids a ∧
    Auction.bids_count a'
    = (Auction.bids_count a
       + (if bool_decide (Call.auction_id c = id)
             && bool_decide (Call.seconds_remaining c
                             ∈ TimedStrategy.bid_times s)
             && (Auction.bids_count a <? Auction.max_bids a)%Z
          then 1 else 0))%Z.
Proof.
  intros Ha Hs. unfold process.
  destruct (decide (Call.auction_id c = id)) as [Heq|Hne].
  - rewrite bool_decide_eq_true_2 by done. rewrite Heq.
    unfold process_bid. rewrite Ha.
    destruct (Z.leb_spec (Auction.max_bids a) (Auction.bids_count a))
      as [Hcap|Hcap].
    + exists a. cbn. rewrite (proj2 (Z.ltb_ge _ _)) by lia.
      rewrite andb_false_r. split_and!; try done. lia.
    + rewrite Hs. unfold TimedStrategy.should_bid.
      rewrite (proj2 (Z.ltb_lt _ _)) by lia. rewrite andb_true_r. cbn [andb].
      case_bool_decide.
      * eexists. cbn. rewrite lookup_insert_eq. by split_and!.
      * exists a. cbn. split_and!; try done. lia.
  - rewrite bool_decide_eq_false_2 by done. cbn [andb].
    destruct (core_process_lookup c st id a Ha)
      as (a' & Ha' & Hs' & Hm' & _ & _ & [->|[? _]]); [|done].
    exists a. split_and!; try done. lia.
Qed.

(** X16: the timed strategy of the second engine has no memory.  Over
    any sequence of [process_bid] calls, an auction bound to a
    [TimedStrategy] gets a bid at every call made on it at a scheduled
    second, again and again at the same second, until the cap: its
    [bids_count] grows by the number of such calls, or by what was left
    under [max_bids] if that is less. *)
Theorem core_timed_bids_every_scheduled_poll calls : ∀ st id a s,
  auctions st !! id = Some a →
  Auction.strategy a = Timed s →
  ∃ a',
    auctions (snd (process_all calls st)) !! id = Some a' ∧
    Auction.strategy a' = Timed s ∧
    Auction.max_bids a' = Auction.max_bids a ∧
    Auction.bids_count a'
    = (Auction.bids_count a
       + Z.min (Z.of_nat (scheduled_on id s calls))
               (Z.max 0 (Auction.max_bids a - Auction.bids_count a)))%Z.
Proof.
  induction calls as [|c calls IH]; intros st id a s Ha Hs; cbn.
  - exists a. split_and!; try done. unfold scheduled_on. cbn. lia.
  - destruct (core_process_timed_count c st id a s Ha Hs)
      as (a1 & Ha1 & Hs1 & Hm1 & Hc1).
    destruct (process c st) as [r st1]. cbn in Ha1.
    destruct (IH st1 id a1 s Ha1 Hs1) as (a2 & Ha2 & Hs2 & Hm2 & Hc2).
    destruct (process_all calls st1) as [rs st2]. cbn in *.
    exists a2. split_and!; try done; [congruence|].
    rewrite Hc2, Hc1, Hm1. unfold scheduled_on. cbn [List.filter].
    destruct (bool_decide (Call.auction_id c = id)
              && bool_decide (Call.seconds_remaining c
                              ∈ TimedStrategy.bid_times s)); cbn [andb length].
    + destruct (Z.ltb_spec (Auction.bids_count a) (Auction.max_bids a)); lia.
    + lia.
Qed.

Lemma core_timed_bids_every_scheduled_poll_witness :
  let s := {| TimedStrategy.bid_times := [60; 30; 10; 3]%Z;
              TimedStrategy.random_delay := false |} in
  let st := register_auction "A" (Timed s) 90 3 "item" init in
  let calls := (λ secs, {| Call.auction_id := "A";
                           Call.current_price := 100;
                           Call.seconds_remaining := secs |})
               <$> [30; 30; 29; 30; 30]%Z in
  let a := {| Auction.strategy := Timed s; Auction.min_price := 90;
              Auction.max_bids := 3; Auction.item_description := "item";
              Auction.bids_count := 0; Auction.last_bid := None |} in
  auctions st !! "A" = Some a ∧
  Auction.strategy a = Timed s ∧
  ∃ a',
    auctions (snd (process_all calls st)) !! "A" = Some a' ∧
    Auction.strategy a' = Timed s ∧
    Auction.max_bids a' = Auction.max_bids a ∧
    Auction.bids_count a'
    = (Auction.bids_count a
       + Z.min (Z.of_nat (scheduled_on "A" s calls))
               (Z.max 0 (Auction.max_bids a - Auction.bids_count a)))%Z.
Proof.
  cbv zeta. split; [vm_compute; reflexivity|]. split; [reflexivity|].
  apply core_timed_bids_every_scheduled_poll; [vm_compute|]; reflexivity.
Defined.

Lemma core_process_minimal c st id a m :
  auctions st !! id = Some a →
  Auction.strategy a = Minimal m →
  auctions (snd (process c st)) !! id = Some a ∧
  (Call.auction_id c = id →
   fst (process c st)
   = if (Auction.max_bids a <=? Auction.bids_count a)%Z
     then Ok None else Raise AttributeError).
Proof.
  intros Ha Hs. split.
  - destruct (core_process_lookup c st id a Ha)
      as (a' & Ha' & _ & _ & _ & _ & [->|(Heq & v & Hv & _)]); [done|].
    exfalso. subst id. unfold process, process_bid in Hv.
    rewrite Ha, Hs in Hv.
    by destruct (Auction.max_bids a <=? Auction.bids_count a)%Z.
  - intros <-. unfold process, process_bid. rewrite Ha, Hs.
    by destruct (Auction.max_bids a <=? Auction.bids_count a)%Z.
Qed.

(** X17: the second engine's manager cannot bid for an auction bound to
    a [MinimalDecreaseStrategy], which has no [should_bid] there: over
    any sequence of [process_bid] calls the record stays exactly as it
    is, and every call on it raises [AttributeError], or returns "no
    bid" when [bids_count >= max_bids]. *)
Theorem core_minimal_auction_never_bids calls : ∀ st id a m,
  auctions st !! id = Some a →
  Auction.strategy a = Minimal m →
  let '(rs, st') := process_all calls st in
  auctions st' !! id = Some a ∧
  Forall2 (λ c r,
             Call.auction_id c = id →
             r = if (Auction.max_bids a <=? Auction.bids_count a)%Z
                 then Ok None else Raise AttributeError)
    calls rs.
Proof.
  induction calls as [|c calls IH]; intros st id a m Ha Hs; cbn.
  - by split.
  - destruct (core_process_minimal c st id a m Ha Hs) as [Ha1 Hr].
    destruct (process c st) as [r st1]. cbn in *.
    specialize (IH st1 id a m Ha1 Hs).
    destruct (process_all calls st1) as [rs st2].
    destruct IH as [? ?]. split; [done|]. by constructor.
Qed.

Lemma core_minimal_auction_never_bids_witness :
  let m := {| MinimalDecreaseStrategy.min_decrease_value := 0.01;
              MinimalDecreaseStrategy.min_decrease_percent := 0.1 |} in
  let st := register_auction "A" (Minimal m) 90 5 "item" init in
  let a := {| Auction.strategy := Minimal m; Auction.min_price := 90;
              Auction.max_bids := 5; Auction.item_description := "item";
              Auction.bids_count := 0; Auction.last_bid := None |} in
  let calls := [{| Call.auction_id := "A"; Call.current_price := 100;
                   Call.seconds_remaining := 30 |};
                {| Call.auction_id := "B"; Call.current_price := 100;
                   Call.seconds_remaining := 30 |}] in
  auctions st !! "A" = Some a ∧
  Auction.strategy a = Minimal m ∧
  let '(rs, st') := process_all calls st in
  auctions st' !! "A" = Some a ∧
  Forall2 (λ c r,
             Call.auction_id c = "A" →
             r = if (Auction.max_bids a <=? Auction.bids_count a)%Z
                 then Ok None else Raise AttributeError)
    calls rs.
Proof.
  cbv zeta. split; [vm_compute; reflexivity|]. split; [reflexivity|].
  apply (core_minimal_auction_never_bids _ _ "A" _
           {| MinimalDecreaseStrategy.min_decrease_value := 0.01;
              MinimalDecreaseStrategy.min_decrease_percent := 0.1 |});
    [vm_compute|]; reflexivity.
Defined.

Lemma core_step_auction_ok o st :
  (∀ id a, auctions st !! id = Some a → auction_ok a) →
  ∀ id a, auctions (step o st) !! id = Some a → auction_ok a.
Proof.
  intros Hst id a. destruct o as [id' str mp mb descr|c|id']; cbn.
  - rewrite lookup_insert. case_decide; [|apply Hst].
    intros; simplify_eq. unfold auction_ok. cbn. by split_and!.
  - unfold process.
    pose proof (core_process_bid_cases (Call.auction_id c)
                  (Call.current_price c) (Call.seconds_remaining c) st) as H.
    destruct (process_bid _ _ _ _) as [r st']. cbn.
    destruct H as [(_ & ->) | (a0 & s & Ha0 & _ & Hc & _ & _ & ->)];
      [apply Hst|].
    cbn. rewrite lookup_insert. case_decide; [|apply Hst].
    intros; simplify_eq. destruct (Hst _ _ Ha0) as (Hpos & _ & _).
    unfold auction_ok. cbn. split_and!; [lia| |lia].
    split; [done|lia].
  - unfold get_auction_status. destruct (auctions st !! id'); apply Hst.
Qed.

(** X18: in every state the second engine's manager reaches from empty
    by registrations, [process_bid] calls and status queries, every
    record has [bids_count >= 0], has a [last_bid] exactly when
    [bids_count] is not 0, and has [bids_count <= max_bids] when
    [max_bids] is not negative. *)
Theorem core_auction_invariants ops id a :
  auctions (run ops init) !! id = Some a →
  (0 ≤ Auction.bids_count a)%Z ∧
  (Auction.last_bid a = None ↔ Auction.bids_count a = 0%Z) ∧
  ((0 ≤ Auction.max_bids a)%Z →
   (Auction.bids_count a ≤ Auction.max_bids a)%Z).
Proof.
  assert (Hrun : ∀ ops st,
            (∀ id a, auctions st !! id = Some a → auction_ok a) →
            ∀ id a, auctions (run ops st) !! id = Some a → auction_ok a).
  { clear. induction ops as [|o ops IH]; intros st Hst; cbn; [done|].
    apply IH. by apply core_step_auction_ok. }
  intros H. apply (Hrun ops init) with (id := id); [|exact H].
  intros id' a'. cbn. by rewrite lookup_empty.
Qed.

Lemma core_auction_invariants_witness :
  let s := {| TimedStrategy.bid_times := [60; 30; 10; 3]%Z;
              TimedStrategy.random_delay := false |} in
  let call secs := OpProcess {| Call.auction_id := "A";
                                Call.current_price := 100;
                                Call.seconds_remaining := secs |} in
  let ops := [OpRegister "A" (Timed s) 90 2 "item";
              call 60%Z; call 60%Z; call 60%Z; OpStatus "A"] in
  let a := {| Auction.strategy := Timed s; Auction.min_price := 90;
              Auction.max_bids := 2; Auction.item_description := "item";
              Auction.bids_count := 2; Auction.last_bid := Some 90%float |} in
  auctions (run ops init) !! "A" = Some a ∧
  (0 ≤ Auction.bids_count a)%Z ∧
  (Auction.last_bid a = None ↔ Auction.bids_count a = 0%Z) ∧
  ((0 ≤ Auction.max_bids a)%Z →
   (Auction.bids_count a ≤ Auction.max_bids a)%Z).
Proof.
  cbv zeta.
  match goal with |- ?L = ?R ∧ _ =>
    assert (H : L = R) by (vm_compute; reflexivity) end.
  split; [exact H|]. exact (core_auction_invariants _ _ _ H).
Defined.

End CoreFacts.

(* ================================================================== *)
(** * The timed strategy: answers and the aggressive bid *)

Lemma scan_total rnd self secs : ∀ l k,
  (TimedStrategy.random_delay self = true →
   (0 ≤ TimedStrategy.max_random_delay self)%Z) →
  ∃ o, TimedStrategy.scan rnd self secs k l = Ok o.
Proof.
  intros l k Hvalid. revert k.
  induction l as [|bt l IH]; intros k; cbn; [by eexists|].
  unfold TimedStrategy.adjusted_bid_time, TimedStrategy.randint.
  destruct (TimedStrategy.random_delay self) eqn:Hrd.
  - rewrite (proj2 (Z.ltb_ge _ _) (Hvalid eq_refl)).
    destruct (_ && _); [by eexists|apply IH].
  - destruct (_ && _); [by eexists|apply IH].
Qed.

Lemma scan_none rnd self secs : ∀ l k,
  TimedStrategy.scan rnd self secs k l = Ok None →
  ∀ i bt thr,
    l !! i = Some bt →
    TimedStrategy.adjusted_bid_time rnd self (k + i) bt = Ok thr →
    ¬ ((secs ≤ thr)%Z ∧
       (TimedStrategy.last_bid_time_index self < Z.of_nat (k + i))%Z).
Proof.
  induction l as [|bt0 l IH]; intros k H i bt thr Hl Ha [H1 H2]; [done|].
  cbn in H.
  destruct (TimedStrategy.adjusted_bid_time rnd self k bt0) as [thr0|]
    eqn:Hthr0; [|done].
  destruct ((secs <=? thr0)%Z
            && (TimedStrategy.last_bid_time_index self <? Z.of_nat k)%Z)
    eqn:Hcond; [done|].
  destruct i as [|i]; cbn in Hl.
  - simplify_eq. rewrite Nat.add_0_r in *. rewrite Hthr0 in Ha. simplify_eq.
    apply andb_false_iff in Hcond as [Hc|Hc].
    + apply Z.leb_gt in Hc. lia.
    + apply Z.ltb_ge in Hc. lia.
  - apply (IH (S k) H i bt thr Hl); [|split; [done|]].
    + by replace (S k + i) with (k + S i) by lia.
    + by replace (S k + i) with (k + S i) by lia.
Qed.

(** X19: when jitter is off, or on with [max_random_delay >= 0],
    [TimedStrategy.should_bid] always returns an answer (it raises
    nothing), and the answer is true exactly when neither baseline rule
    blocks and some position after the cursor has [seconds_remaining]
    at or below its threshold; when the answer is false the object is
    unchanged. *)
Theorem timed_should_bid_decides rnd self secs price last floor :
  (TimedStrategy.random_delay self = true →
   (0 ≤ TimedStrategy.max_random_delay self)%Z) →
  ∃ b self' evs,
    TimedStrategy.should_bid rnd self secs price last floor
    = Ok (b, self', evs) ∧
    (b = true ↔
     ¬ baseline_blocks price last floor ∧ ∃ i, fires_at rnd self secs i) ∧
    (b = false → self' = self).
Proof.
  intros Hvalid.
  destruct (scan_total rnd self secs (TimedStrategy.bid_times self) 0 Hvalid)
    as [o Hscan].
  unfold TimedStrategy.should_bid.
  destruct (MinimalDecreaseStrategy.should_bid _ price last floor)
    as [ok evs0] eqn:Hbase.
  pose proof (minimal_should_bid_blocked
                (MinimalDecreaseStrategy.init None None) price last floor)
    as Hblocked.
  pose proof (baseline_passes price last floor) as Hpass.
  rewrite Hbase in Hblocked, Hpass. cbn in Hblocked.
  destruct ok; cbn.
  - assert (Hn : ¬ baseline_blocks price last floor)
      by (intros Hb; by specialize (Hblocked Hb)).
    rewrite Hscan. destruct o as [n|].
    + eexists _, _, _. split; [done|]. split; [|done].
      split; [|done]. intros _. split; [done|].
      destruct (scan_found _ _ _ _ _ _ Hscan)
        as (i & bt & thr & -> & Hl & Ha & Hs & Hc & _).
      exists i, bt, thr. by split_and!.
    + eexists _, _, _. split; [done|]. split; [|done].
      split; [done|]. intros [_ (i & bt & thr & Hl & Ha & Hs & Hc)].
      by destruct (scan_none _ _ _ _ _ Hscan i bt thr Hl Ha).
  - eexists _, _, _. split; [done|]. split; [|done].
    split; [done|]. intros [Hn _]. specialize (Hpass Hn). by simplify_eq.
Qed.

Lemma timed_should_bid_decides_witness :
  let self := TimedStrategy.init (Some [60; 30]%Z) true 5 in
  (TimedStrategy.random_delay self = true ∧
   (0 ≤ TimedStrategy.max_random_delay self)%Z) ∧
  ∃ b self' evs,
    TimedStrategy.should_bid (λ _, 8%Z) self 62 100 None (Some 90%float)
    = Ok (b, self', evs) ∧
    (b = true ↔
     ¬ baseline_blocks 100 None (Some 90%float) ∧
     ∃ i, fires_at (λ _, 8%Z) self 62 i) ∧
    (b = false → self' = self).
Proof.
  cbv zeta. split; [split; [reflexivity | cbn; lia]|].
  apply timed_should_bid_decides. cbn. lia.
Defined.

(** X20: the bid of a timed auction is computed on the strategy object
    as the same call's [should_bid] left it.  When [process_bid]
    returns a bid for an auction bound to a [TimedStrategy], the
    object's cursor has moved forward, and the bid is what
    [calculate_bid] gives on the object with the new cursor: with
    [aggressive_final_bid] passed as true, the bid that fires position
    [i] is the aggressive one exactly when [i >= len(bid_times) - 2]. *)
Theorem timed_bid_sees_advanced_cursor rnd now id price secs kw st a s v st' :
  active_auctions st !! id = Some a →
  heap st !! Auction.strategy a = Some (Timed s) →
  process_bid rnd now id price secs kw st = (Ok (Some v), st') →
  ∃ s',
    heap st' !! Auction.strategy a = Some (Timed s') ∧
    (TimedStrategy.last_bid_time_index s
     < TimedStrategy.last_bid_time_index s')%Z ∧
    TimedStrategy.bid_times s' = TimedStrategy.bid_times s ∧
    v = fst (TimedStrategy.calculate_bid s' price
               (default 0.01%float (Kwargs.min_decrease_value kw))
               (default 0%float (Kwargs.min_decrease_percent kw))
               (default false (Kwargs.aggressive_final_bid kw))) ∧
    (Kwargs.aggressive_final_bid kw = Some true →
     snd (TimedStrategy.calculate_bid s' price
            (default 0.01%float (Kwargs.min_decrease_value kw))
            (default 0%float (Kwargs.min_decrease_percent kw)) true)
     = if (Z.of_nat (length (TimedStrategy.bid_times s)) - 2
           <=? TimedStrategy.last_bid_time_index s')%Z
       then [(INFO, MsgAggressive v)]
       else [(INFO, MsgCalculated v price)]).
Proof.
  intros Ha Hh Hp.
  pose proof (process_bid_cases rnd now id price secs kw st) as H.
  rewrite Hp in H.
  destruct H as [(Hno & _) | (a' & v' & evs1 & evs2 & Ha' & _ & Hs & Hc & Hv & _)];
    [by destruct (Hno v)|].
  rewrite Ha in Ha'. simplify_eq.
  unfold call_should_bid in Hs. rewrite Hh in Hs. cbn in Hs.
  destruct secs as [sec|]; [|done].
  destruct (TimedStrategy.should_bid rnd s sec price _ _)
    as [[[b s'] evs]|] eqn:Hsb; [|done].
  injection Hs as -> Hheap _.
  destruct (should_bid_fired _ _ _ _ _ _ _ _ Hsb)
    as (i & (bt & thr & _ & _ & _ & Hci) & _ & ->).
  assert (Hh' : heap st' !! Auction.strategy a'
                = Some (Timed (TimedStrategy.set_last_bid_time_index
                                 (Z.of_nat i) s))).
  { rewrite <- Hheap. apply list_lookup_insert_eq. by eapply lookup_lt_Some. }
  unfold call_calculate_bid in Hc. rewrite Hh' in Hc. cbn in Hc.
  eexists. split; [exact Hh'|]. cbn [TimedStrategy.last_bid_time_index
    TimedStrategy.set_last_bid_time_index TimedStrategy.bid_times].
  split; [done|]. split; [done|]. split.
  - injection Hc as Hc. by rewrite Hc.
  - intros Hagg. rewrite Hagg in Hc. injection Hc as Hc.
    cbn [default] in Hc. rewrite Hc. cbn [snd].
    unfold TimedStrategy.calculate_bid in Hc.
    cbn [TimedStrategy.last_bid_time_index TimedStrategy.bid_times
         TimedStrategy.set_last_bid_time_index andb] in Hc.
    destruct (Z.of_nat (length (TimedStrategy.bid_times s)) - 2
              <=? Z.of_nat i)%Z.
    + by injection Hc as <- <-.
    + unfold MinimalDecreaseStrategy.calculate_bid in Hc.
      by injection Hc as <- <-.
Qed.

Lemma timed_bid_sees_advanced_cursor_witness :
  let s := TimedStrategy.set_last_bid_time_index 1
             (TimedStrategy.init None false 5) in
  let st := snd (register_auction 0 "A" 0 None None None
                   (BiddingManager.init [Timed s])) in
  let a := fresh_auction 0 0 None None None in
  let kw := {| Kwargs.my_last_bid := None; Kwargs.min_price := None;
               Kwargs.min_decrease_value := None;
               Kwargs.min_decrease_percent := None;
               Kwargs.aggressive_final_bid := Some true |} in
  active_auctions st !! "A" = Some a ∧
  heap st !! Auction.strategy a = Some (Timed s) ∧
  process_bid (λ _, 0%Z) 1 "A" 100 (Some 10%Z) kw st
  = (Ok (Some 99.98%float),
     snd (process_bid (λ _, 0%Z) 1 "A" 100 (Some 10%Z) kw st)) ∧
  ∃ s',
    heap (snd (process_bid (λ _, 0%Z) 1 "A" 100 (Some 10%Z) kw st))
      !! Auction.strategy a = Some (Timed s') ∧
    (TimedStrategy.last_bid_time_index s
     < TimedStrategy.last_bid_time_index s')%Z ∧
    TimedStrategy.bid_times s' = TimedStrategy.bid_times s ∧
    99.98%float
    = fst (TimedStrategy.calculate_bid s' 100
             (default 0.01%float (Kwargs.min_decrease_value kw))
             (default 0%float (Kwargs.min_decrease_percent kw))
             (default false (Kwargs.aggressive_final_bid kw))) ∧
    (Kwargs.aggressive_final_bid kw = Some true →
     snd (TimedStrategy.calculate_bid s' 100
            (default 0.01%float (Kwargs.min_decrease_value kw))
            (default 0%float (Kwargs.min_decrease_percent kw)) true)
     = if (Z.of_nat (length (TimedStrategy.bid_times s)) - 2
           <=? TimedStrategy.last_bid_time_index s')%Z
       then [(INFO, MsgAggressive 99.98)]
       else [(INFO, MsgCalculated 99.98 100)]).
Proof.
  cbv zeta.
  split; [vm_compute; reflexivity|]. split; [vm_compute; reflexivity|].
  match goal with |- ?L = ?R ∧ _ =>
    assert (H : L = R) by (vm_compute; reflexivity) end.
  split; [exact H|].
  refine (timed_bid_sees_advanced_cursor _ _ _ _ _ _ _ _ _ _ _ _ _ H);
    vm_compute; reflexivity.
Defined.
